(** * MUSE ECG extractor: waveform decoding, lead assembly, batch input expansion

    A shallow embedding of [MUSE_ECG_Extractor.py] ([decode_waveform],
    [get_lead_data]) and of [iter_xml_files] from
    [MUSE_ECG_Extractor_KW_metadata_v2.py], with the properties of the
    specification stated and proved over it.

    Conventions of the embedding.
    - Text is 7-bit ASCII: a Python [str] is a [string]; a character above
      127 is only ever inspected by [b64decode], which rejects it.
    - A byte is a [Z] in [0, 256).
    - The numeric engine (numpy's float64 arithmetic and Python's [float])
      is an interface, [NumEngine]: every statement below holds for any
      implementation of it, rounding included. [Q] is the instance used to
      run the code on concrete documents.
    - A raised exception is the [Raise] branch of [result]. *)

From Stdlib Require Import ZArith QArith Ascii String DecimalString.
From stdpp Require Import base tactics option list gmap strings.

Local Open Scope string_scope.
Local Open Scope list_scope.
Local Open Scope Z_scope.
Set Warnings "-register-all,-clear-no-such-hyp".

(** ** Results and exceptions *)

Inductive result (E A : Type) : Type :=
| Ok (a : A)
| Raise (e : E).
Arguments Ok {E A} a.
Arguments Raise {E A} e.

Definition rbind {E A B} (m : result E A) (k : A -> result E B) : result E B :=
  match m with
  | Ok a => k a
  | Raise e => Raise e
  end.

Notation "'let*' x := m 'in' k" := (rbind m (fun x => k))
  (at level 10, x name, m at level 100, k at level 200).

(** The exceptions that can leave [get_lead_data]. *)
Inductive exception : Type :=
| AttributeError   (* [None.text], [None.strip], [None.lower] *)
| KeyError
| ValueError       (* [float] of a non-number; numpy shape mismatch *)
| TypeError.       (* numpy: no ufunc loop for a text array *)

(** The exceptions raised inside the [try] block of [decode_waveform],
    with what [str(e)] prints for each. *)
Inductive decode_exn : Type :=
| NonAsciiText
| IncorrectPadding
| InvalidLength (data_chars : nat)
| StructError (need : nat).

Definition decimal (n : nat) : string := NilEmpty.string_of_uint (Nat.to_uint n).

Definition exn_str (e : decode_exn) : string :=
  match e with
  | NonAsciiText => "string argument should contain only ASCII characters"
  | IncorrectPadding => "Incorrect padding"
  | InvalidLength n =>
      "Invalid base64-encoded string: number of data characters ("
      +:+ decimal n +:+ ") cannot be 1 more than a multiple of 4"
  | StructError n => "unpack requires a buffer of " +:+ decimal n +:+ " bytes"
  end.

(** ** Text: [str.strip], [str.upper], [str.lower] *)

Definition code (c : ascii) : Z := Z.of_N (N_of_ascii c).

Definition isspace (c : ascii) : bool :=
  let n := code c in
  ((9 <=? n) && (n <=? 13)) || ((28 <=? n) && (n <=? 32)).

Definition ascii_upper (c : ascii) : ascii :=
  let n := code c in
  if (97 <=? n) && (n <=? 122) then ascii_of_N (Z.to_N (n - 32)) else c.

Definition ascii_lower (c : ascii) : ascii :=
  let n := code c in
  if (65 <=? n) && (n <=? 90) then ascii_of_N (Z.to_N (n + 32)) else c.

Fixpoint upper (s : string) : string :=
  match s with
  | EmptyString => EmptyString
  | String c r => String (ascii_upper c) (upper r)
  end.

Fixpoint lower (s : string) : string :=
  match s with
  | EmptyString => EmptyString
  | String c r => String (ascii_lower c) (lower r)
  end.

Fixpoint lstrip (s : string) : string :=
  match s with
  | EmptyString => EmptyString
  | String c r => if isspace c then lstrip r else s
  end.

Fixpoint rstrip (s : string) : string :=
  match s with
  | EmptyString => EmptyString
  | String c r =>
      match rstrip r with
      | EmptyString => if isspace c then EmptyString else String c EmptyString
      | r' => String c r'
      end
  end.

Definition strip (s : string) : string := rstrip (lstrip s).

(** ** [base64.b64decode] (lenient mode) and [struct.unpack]

    [b64decode] follows CPython's [binascii.a2b_base64] with
    [strict_mode = 0]: characters outside the alphabet are skipped, a
    pad that completes a quad ends the input, and a quad left open at the
    end of the input is an error. *)

Definition table_a2b_base64 (c : ascii) : option Z :=
  let n := code c in
  if (65 <=? n) && (n <=? 90) then Some (n - 65)
  else if (97 <=? n) && (n <=? 122) then Some (n - 71)
  else if (48 <=? n) && (n <=? 57) then Some (n + 4)
  else if n =? 43 then Some 62
  else if n =? 47 then Some 63
  else None.

Definition BASE64_PAD : ascii := "="%char.

(** An [unsigned char] store. *)
Definition uchar (z : Z) : Z := Z.land z 255.

Fixpoint a2b_loop (s : string) (quad_pos : Z) (leftchar : Z) (pads : Z)
    (bin_data : list Z) : result decode_exn (list Z) :=
  match s with
  | EmptyString =>
      if quad_pos =? 0 then Ok bin_data
      else if quad_pos =? 1
           then Raise (InvalidLength (length bin_data / 3 * 4 + 1)%nat)
           else Raise IncorrectPadding
  | String this_ch rest =>
      if Ascii.eqb this_ch BASE64_PAD then
        if 2 <=? quad_pos then
          if 4 <=? quad_pos + (pads + 1) then Ok bin_data
          else a2b_loop rest quad_pos leftchar (pads + 1) bin_data
        else a2b_loop rest quad_pos leftchar pads bin_data
      else
        match table_a2b_base64 this_ch with
        | None => a2b_loop rest quad_pos leftchar pads bin_data
        | Some v =>
            if quad_pos =? 0 then a2b_loop rest 1 v 0 bin_data
            else if quad_pos =? 1 then
              a2b_loop rest 2 (Z.land v 15) 0
                (bin_data ++ [uchar (Z.lor (Z.shiftl leftchar 2) (Z.shiftr v 4))])
            else if quad_pos =? 2 then
              a2b_loop rest 3 (Z.land v 3) 0
                (bin_data ++ [uchar (Z.lor (Z.shiftl leftchar 4) (Z.shiftr v 2))])
            else
              a2b_loop rest 0 0 0
                (bin_data ++ [uchar (Z.lor (Z.shiftl leftchar 6) v)])
        end
  end.

Definition a2b_base64 (s : string) : result decode_exn (list Z) :=
  a2b_loop s 0 0 0 [].

Fixpoint only_ascii (s : string) : bool :=
  match s with
  | EmptyString => true
  | String c r => (code c <? 128) && only_ascii r
  end.

Definition b64decode (s : string) : result decode_exn (list Z) :=
  if only_ascii s then a2b_base64 s else Raise NonAsciiText.

(** One ['<h'] field: two bytes, low byte first, two's complement. *)
Definition int16_le (b0 b1 : Z) : Z :=
  let u := Z.lor b0 (Z.shiftl b1 8) in
  if Z.testbit u 15 then u - 65536 else u.

Fixpoint unpack_h (buf : list Z) : list Z :=
  match buf with
  | b0 :: b1 :: r => int16_le b0 b1 :: unpack_h r
  | _ => []
  end.

(** [struct.unpack('<' + 'h' * n, buf)]: the buffer must hold exactly
    [2 * n] bytes. *)
Definition struct_unpack_h (n : nat) (buf : list Z) : result decode_exn (list Z) :=
  if decide (length buf = (2 * n)%nat) then Ok (unpack_h buf)
  else Raise (StructError (2 * n)).

(** ** The numeric engine *)

Class NumEngine (F : Type) : Type := {
  of_int : Z -> F;                        (* int -> float64 *)
  fadd : F -> F -> F;
  fsub : F -> F -> F;
  fmul : F -> F -> F;
  fdiv : F -> F -> F;
  fneg : F -> F;
  float_of_str : string -> option F       (* [float(s)]; [None]: ValueError *)
}.

(** A value held in the lead dictionary: a one-dimensional float64 array,
    or the zero-dimensional text array that [np.array] makes of a [str]. *)
Inductive ndarray (F : Type) : Type :=
| Float1d (xs : list F)
| Str0d (s : string).
Arguments Float1d {F} xs.
Arguments Str0d {F} s.

(** What [decode_waveform] returns: an array of samples, or a [str]. *)
Inductive decoded (F : Type) : Type :=
| Samples (xs : list F)
| ErrorText (s : string).
Arguments Samples {F} xs.
Arguments ErrorText {F} s.

(** The text of the [except] branch: [f"[Error decoding waveform: {e}]"]. *)
Definition marker (e : decode_exn) : string :=
  "[Error decoding waveform: " +:+ exn_str e +:+ "]".

Section Decoder.
Context {F : Type} {NE : NumEngine F}.

(** The body of the [try] block. *)
Definition decode_waveform_try (b64_data : string) (scale : F)
    : result decode_exn (list F) :=
  let* binary_data := b64decode b64_data in
  let num_samples := (length binary_data / 2)%nat in
  let* samples :=
    struct_unpack_h num_samples (take (num_samples * 2) binary_data) in
  Ok (map (fun s => fmul (of_int s) scale) samples).

Definition decode_waveform (b64_data : string) (scale : F) : decoded F :=
  match decode_waveform_try b64_data scale with
  | Ok a => Samples a
  | Raise e => ErrorText (marker e)
  end.

(** [np.array(decoded)] *)
Definition np_array (d : decoded F) : ndarray F :=
  match d with
  | Samples xs => Float1d xs
  | ErrorText s => Str0d s
  end.

End Decoder.

(** The engine used to run the code on concrete inputs: exact rationals.
    Its [float] reads plain decimal numerals ([-12], [4.88], [+.5]), a
    subset of what Python's [float] accepts. *)
Definition digit_of (c : ascii) : option Z :=
  let n := code c in
  if (48 <=? n) && (n <=? 57) then Some (n - 48) else None.

Fixpoint read_decimal (s : string) (seen_dot : bool) (m : Z) (den : positive)
    (ndigits : nat) : option Q :=
  match s with
  | EmptyString => match ndigits with O => None | _ => Some (m # den) end
  | String c r =>
      if Ascii.eqb c "."%char then
        if seen_dot then None else read_decimal r true m den ndigits
      else
        match digit_of c with
        | Some d =>
            read_decimal r seen_dot (10 * m + d)
              (if seen_dot then (10 * den)%positive else den) (S ndigits)
        | None => None
        end
  end.

Definition Q_of_str (s : string) : option Q :=
  match s with
  | String c r =>
      if Ascii.eqb c "-"%char then Qopp <$> read_decimal r false 0 1 0
      else if Ascii.eqb c "+"%char then read_decimal r false 0 1 0
      else read_decimal s false 0 1 0
  | EmptyString => None
  end.

#[export] Instance Q_engine : NumEngine Q := {|
  of_int := inject_Z;
  fadd := Qplus;
  fsub := Qminus;
  fmul := Qmult;
  fdiv := Qdiv;
  fneg := Qopp;
  float_of_str := Q_of_str
|}.

(** ** numpy arithmetic on the values of the lead dictionary

    Two one-dimensional arrays combine elementwise when their lengths are
    equal; an array of length one is broadcast against the other; any
    other pair of lengths raises [ValueError]. Arithmetic on a text array
    raises (numpy's [UFuncTypeError], a [TypeError]). *)

Section Numpy.
Context {F : Type} {NE : NumEngine F}.

Definition broadcast2 (f : F -> F -> F) (a b : ndarray F)
    : result exception (ndarray F) :=
  match a, b with
  | Float1d xs, Float1d ys =>
      if decide (length xs = length ys) then Ok (Float1d (zip_with f xs ys))
      else match xs, ys with
           | [x], _ => Ok (Float1d (map (f x) ys))
           | _, [y] => Ok (Float1d (map (fun x => f x y) xs))
           | _, _ => Raise ValueError
           end
  | _, _ => Raise TypeError
  end.

Definition np_add := broadcast2 fadd.
Definition np_sub := broadcast2 fsub.

Definition np_neg (a : ndarray F) : result exception (ndarray F) :=
  match a with
  | Float1d xs => Ok (Float1d (map fneg xs))
  | Str0d _ => Raise TypeError
  end.

(** [a / 2] *)
Definition np_div2 (a : ndarray F) : result exception (ndarray F) :=
  match a with
  | Float1d xs => Ok (Float1d (map (fun x => fdiv x (of_int 2)) xs))
  | Str0d _ => Raise TypeError
  end.

End Numpy.

(** ** The parsed document: an element tree *)

Inductive Element : Type :=
| Elem (tag : string) (text : option string) (children : list Element).

Definition tag (e : Element) : string := let 'Elem t _ _ := e in t.
Definition text (e : Element) : option string := let 'Elem _ t _ := e in t.
Definition children (e : Element) : list Element := let 'Elem _ _ cs := e in cs.

Definition has_tag (name : string) (e : Element) : bool :=
  bool_decide (tag e = name).

(** [e.find(name)]: the first child with that tag, or [None]. *)
Definition find (name : string) (e : Element) : option Element :=
  List.find (has_tag name) (children e).

(** [e.xpath('.//name')]: every proper descendant with that tag, in
    document order. *)
Fixpoint xpath_descendants (name : string) (e : Element) : list Element :=
  match e with
  | Elem _ _ cs =>
      flat_map (fun c => (if has_tag name c then [c] else [])
                           ++ xpath_descendants name c) cs
  end.

(** Calling a [str] method on the [.text] of an element: [None] has no
    such method. *)
Definition of_text (t : option string) : result exception string :=
  match t with
  | Some s => Ok s
  | None => Raise AttributeError
  end.

(** ** [get_lead_data] *)

Fixpoint for_each {S X : Type} (body : X -> S -> result exception S)
    (xs : list X) (st : S) : result exception S :=
  match xs with
  | [] => Ok st
  | x :: r => let* st' := body x st in for_each body r st'
  end.

Definition LEAD_NAMES : list string :=
  ["I"; "II"; "III"; "aVR"; "aVL"; "aVF"; "V1"; "V2"; "V3"; "V4"; "V5"; "V6"].

Section Assembler.
Context {F : Type} {NE : NumEngine F}.

(** The local [leads] dictionary and what has been printed. *)
Record state : Type := State {
  leads : gmap string (ndarray F);
  stdout : list string
}.

Definition initial_leads : gmap string (ndarray F) :=
  list_to_map (map (fun k => (k, Float1d [])) LEAD_NAMES).

Definition getitem (d : gmap string (ndarray F)) (k : string)
    : result exception (ndarray F) :=
  match d !! k with
  | Some v => Ok v
  | None => Raise KeyError
  end.

(** Line 145. *)
Definition lead_id_of (lead_data : Element) : result exception string :=
  match find "LeadID" lead_data with
  | Some e => let* t := of_text (text e) in Ok (upper (strip t))
  | None => Ok "[Unknown LeadID]"
  end.

(** Line 146. *)
Definition waveform_text_of (lead_data : Element) : result exception string :=
  match find "WaveFormData" lead_data with
  | Some e => let* t := of_text (text e) in Ok (strip t)
  | None => Ok ""
  end.

(** Lines 150-151. *)
Definition scale_of (lead_data : Element) : result exception F :=
  match find "LeadAmplitudeUnitsPerBit" lead_data with
  | Some e =>
      let* t := of_text (text e) in
      match float_of_str (strip t) with
      | Some x => Ok x
      | None => Raise ValueError
      end
  | None => Ok (of_int 1)
  end.

(** The body of the inner loop, lines 142-157. *)
Definition process_lead (lead_data : Element) (st : state)
    : result exception state :=
  let* lead_id := lead_id_of lead_data in
  let* waveform_text := waveform_text_of lead_data in
  match leads st !! lead_id with
  | Some _ =>
      let* scale := scale_of lead_data in
      let decoded := decode_waveform waveform_text scale in
      Ok (State (<[lead_id := np_array decoded]> (leads st)) (stdout st))
  | None =>
      Ok (State (leads st) (stdout st ++ ["No waveform data found."]))
  end.

(** The body of the outer loop, lines 136-157. *)
Definition process_waveform (waveform : Element) (st : state)
    : result exception state :=
  let* type_elem :=
    match find "WaveformType" waveform with
    | Some e => Ok e
    | None => Raise AttributeError
    end in
  let* t := of_text (text type_elem) in
  let waveform_type := lower t in
  if bool_decide (waveform_type <> "rhythm") then Ok st
  else for_each process_lead (xpath_descendants "LeadData" waveform) st.

(** Lines 121-157: the dictionary after both loops. *)
Definition collect (root : Element) : result exception state :=
  for_each process_waveform (xpath_descendants "Waveform" root)
    (State initial_leads []).

(** Lines 159-162. *)
Definition derive (d : gmap string (ndarray F))
    : result exception (gmap string (ndarray F)) :=
  let* ii := getitem d "II" in
  let* i := getitem d "I" in
  let* v := np_sub ii i in
  let d := <["III" := v]> d in
  let* i := getitem d "I" in
  let* ii := getitem d "II" in
  let* s := np_add i ii in
  let* n := np_neg s in
  let* v := np_div2 n in
  let d := <["aVR" := v]> d in
  let* i := getitem d "I" in
  let* ii := getitem d "II" in
  let* h := np_div2 ii in
  let* v := np_sub i h in
  let d := <["aVL" := v]> d in
  let* ii := getitem d "II" in
  let* i := getitem d "I" in
  let* h := np_div2 i in
  let* v := np_sub ii h in
  Ok (<["aVF" := v]> d).

Definition get_lead_data (root : Element)
    : result exception (gmap string (ndarray F)) :=
  let* st := collect root in
  derive (leads st).

End Assembler.

(** ** The batch boundary: [iter_xml_files]

    The file system is a tree; a path is the list of its components,
    resolved from the working directory. [rglob] matches names the way
    the platform does: as written on POSIX, case-folded on Windows. *)

Inductive fsnode : Type :=
| File
| Dir (entries : list (string * fsnode)).

Definition fspath : Type := list string.

Inductive flavour : Type := Posix | Windows.

Fixpoint entry (name : string) (entries : list (string * fsnode)) : option fsnode :=
  match entries with
  | [] => None
  | (n, c) :: r => if bool_decide (n = name) then Some c else entry name r
  end.

Fixpoint resolve (fs : fsnode) (p : fspath) : option fsnode :=
  match p with
  | [] => Some fs
  | name :: r =>
      match fs with
      | File => None
      | Dir entries =>
          match entry name entries with
          | Some c => resolve c r
          | None => None
          end
      end
  end.

Definition is_file (fs : fsnode) (p : fspath) : bool :=
  match resolve fs p with Some File => true | _ => false end.

Definition is_dir (fs : fsnode) (p : fspath) : bool :=
  match resolve fs p with Some (Dir _) => true | _ => false end.

(** [name.rfind('.')] *)
Fixpoint rfind_dot (name : string) : option nat :=
  match name with
  | EmptyString => None
  | String c r =>
      match rfind_dot r with
      | Some i => Some (S i)
      | None => if Ascii.eqb c "."%char then Some O else None
      end
  end.

(** [PurePath.suffix]: the last dot and what follows it, unless the dot
    is the first or the last character of the name. *)
Definition suffix (p : fspath) : string :=
  let name := List.last p "" in
  match rfind_dot name with
  | Some i =>
      if bool_decide (0 < i < String.length name - 1)%nat
      then String.substring i (String.length name - i) name
      else ""
  | None => ""
  end.

Fixpoint endswith (s suf : string) : bool :=
  bool_decide (s = suf)
  || match s with
     | EmptyString => false
     | String _ r => endswith r suf
     end.

(** The pattern ["*.xml"] against one name. *)
Definition fnmatch_xml (fl : flavour) (name : string) : bool :=
  match fl with
  | Posix => endswith name ".xml"
  | Windows => endswith (lower name) ".xml"
  end.

(** [path.rglob("*.xml")]: the matching entries of the directory, then
    those of each subdirectory in turn. *)
Fixpoint rglob_xml (fl : flavour) (path : fspath) (node : fsnode) : list fspath :=
  match node with
  | File => []
  | Dir entries =>
      map (fun e => path ++ [e.1]) (filter (fun e => fnmatch_xml fl e.1 = true) entries)
      ++ flat_map (fun e => rglob_xml fl (path ++ [e.1]) e.2) entries
  end.

(** The generator, as the list of what it yields. *)
Definition iter_xml_files (fl : flavour) (fs : fsnode) (inputs : list fspath)
    : list fspath :=
  flat_map
    (fun path =>
       if is_file fs path && bool_decide (lower (suffix path) = ".xml") then [path]
       else if is_dir fs path then
         match resolve fs path with
         | Some node => rglob_xml fl path node
         | None => []
         end
       else [])
    inputs.

(** ** The derivation expressions and the vocabulary of the statements *)

Section Derivation.
Context {F : Type} {NE : NumEngine F}.

(** The right-hand sides of lines 159-162, as functions of the values
    of I and II. *)
Definition expr_III (i ii : ndarray F) : result exception (ndarray F) :=
  np_sub ii i.
Definition expr_aVR (i ii : ndarray F) : result exception (ndarray F) :=
  let* s := np_add i ii in let* n := np_neg s in np_div2 n.
Definition expr_aVL (i ii : ndarray F) : result exception (ndarray F) :=
  let* h := np_div2 ii in np_sub i h.
Definition expr_aVF (i ii : ndarray F) : result exception (ndarray F) :=
  let* h := np_div2 i in np_sub ii h.

Definition half (x : F) : F := fdiv x (of_int 2).

(** The lengths numpy accepts for an elementwise operation. *)
Definition shapes_agree (xs ys : list F) : Prop :=
  length xs = length ys \/ length xs = 1%nat \/ length ys = 1%nat.

(** The section's type text: [waveform.find('WaveformType').text]. *)
Definition section_type (w : Element) : option string :=
  match find "WaveformType" w with
  | Some e => text e
  | None => None
  end.

End Derivation.

(** A byte value. *)
Definition is_byte (b : Z) : Prop := 0 <= b < 256.

(** ** Example documents *)

Definition leaf (t s : string) : Element := Elem t (Some s) [].

Definition lead_node (id b64 : string) : Element :=
  Elem "LeadData" None [leaf "LeadID" id; leaf "WaveFormData" b64].

Definition scaled_lead_node (id b64 units : string) : Element :=
  Elem "LeadData" None
    [leaf "LeadID" id; leaf "LeadAmplitudeUnitsPerBit" units; leaf "WaveFormData" b64].

Definition section (type : string) (lead_nodes : list Element) : Element :=
  Elem "Waveform" None (leaf "WaveformType" type :: lead_nodes).

(** A median section and a rhythm section with I, II and V1. *)
Definition doc_rhythm : Element :=
  Elem "RestingECG" None
    [leaf "PatientID" "0001";
     section "Median" [lead_node "I" "AAAA"];
     section "Rhythm"
       [scaled_lead_node "I" "AQD//w==" "2.0";
        lead_node " ii " "AgABAA==";
        lead_node "V1" "AwA="]].

(** Median sections only. *)
Definition doc_median : Element :=
  Elem "RestingECG" None
    [section "median" [lead_node "I" "AQD//w=="; lead_node "II" "AgABAA=="];
     section "median" [lead_node "V1" "AwA="]].

(** The blob of V1 is not base64; the leads around it are sound. *)
Definition doc_bad_V1 : Element :=
  Elem "RestingECG" None
    [section "Rhythm"
       [lead_node "I" "AQD//w=="; lead_node "V1" "A"; lead_node "II" "AgABAA=="]].

(** The blob of I is not base64. *)
Definition doc_bad_I : Element :=
  Elem "RestingECG" None
    [section "Rhythm" [lead_node "I" "A"; lead_node "II" "AgABAA=="]].

(** Lead I holds one sample; lead II is not recorded. *)
Definition doc_one_sample : Element :=
  Elem "RestingECG" None [section "Rhythm" [lead_node "I" "AQA="]].

(** Lead I holds two samples; lead II is not recorded. *)
Definition doc_I_only : Element :=
  Elem "RestingECG" None [section "Rhythm" [lead_node "I" "AQD//w=="]].

(** A recorded aVR and a recorded III next to I and II. *)
Definition doc_recorded_derived : Element :=
  Elem "RestingECG" None
    [section "RHYTHM"
       [lead_node "I" "AQD//w=="; lead_node "II" "AgABAA==";
        lead_node "aVR" "AwAEAA=="; lead_node "III" "AwAEAA=="]].

(** A waveform section without a [WaveformType] child. *)
Definition doc_untyped_section : Element :=
  Elem "RestingECG" None
    [Elem "Waveform" None [lead_node "I" "AQD//w=="; lead_node "II" "AgABAA=="]].

(** A lead node with none of its three fields. *)
Definition bare_lead_node : Element := Elem "LeadData" None [].

Definition fs_example : fsnode :=
  Dir [("data",
        Dir [("ECG1.XML", File); ("ecg2.xml", File); ("notes.txt", File);
             ("old.xml", Dir [("ecg3.xml", File)])])].

(** The lead set a call returned, for use on the example documents. *)
Definition returned (r : result exception (gmap string (ndarray Q)))
    : gmap string (ndarray Q) :=
  match r with
  | Ok d => d
  | Raise _ => ∅
  end.

(** The dictionary after the lead node of I in [doc_bad_V1] and
    [doc_I_only], and after that of [doc_one_sample]. *)
Definition after_I : state (F:=Q) :=
  State (<["I" := Float1d [1 * 1; -1 * 1]%Q]> initial_leads) [].

Definition after_one_sample : state (F:=Q) :=
  State (<["I" := Float1d [1 * 1]%Q]> initial_leads) [].

(** * The metadata extractor and the batch writer

    [extract_xml], [clean_row_for_tsv] and [write_metadata_batch] of
    [MUSE_ECG_Extractor_KW_metadata_v2.py]. [get_int_or_none] and the two
    diagnosis loops are the same in all three source files. *)

(** A value of the metadata dictionary. *)
Inductive pyval : Type :=
| PyStr (s : string)
| PyInt (n : Z)
| PyNone.

Definition LF : string := String "010"%char EmptyString.
Definition CR : string := String "013"%char EmptyString.
Definition CRLF : string := String "013"%char (String "010"%char EmptyString).

(** ** [findtext] and [get_int_or_none] *)

(** The elements a path of child steps selects ([./A/B]), in document
    order. *)
Fixpoint find_path (steps : list string) (e : Element) : list Element :=
  match steps with
  | [] => [e]
  | name :: rest =>
      flat_map (find_path rest) (filter (fun c => has_tag name c = true) (children e))
  end.

(** [findtext]: the text of the first selected element, [''] when that
    element has no text, the default when nothing is selected. *)
Definition findtext (selected : list Element) (default : pyval) : pyval :=
  match selected with
  | [] => default
  | el :: _ => match text el with Some t => PyStr t | None => PyStr "" end
  end.

(** [str.isdigit] on ASCII text: at least one character, all of them
    decimal digits. *)
Fixpoint all_digits (s : string) : bool :=
  match s with
  | EmptyString => true
  | String c r =>
      match digit_of c with
      | Some _ => all_digits r
      | None => false
      end
  end.

Definition isdigit (s : string) : bool :=
  match s with
  | EmptyString => false
  | _ => all_digits s
  end.

(** The value of a string of decimal digits. *)
Fixpoint digits_value (s : string) (acc : Z) : Z :=
  match s with
  | EmptyString => acc
  | String c r =>
      match digit_of c with
      | Some d => digits_value r (10 * acc + d)
      | None => acc
      end
  end.

(** [int(val)] for a [val] whose stripped text is all digits: [int]
    ignores the surrounding whitespace. (The [ValueError] of [int] on
    more digits than the interpreter's limit, or on a digit outside
    ASCII, is not modelled: see [plain_int_text].) *)
Definition py_int (val : string) : Z := digits_value (strip val) 0.

Definition get_int_or_none (root : Element) (steps : list string) : pyval :=
  match findtext (find_path steps root) PyNone with
  | PyStr val => if isdigit (strip val) then PyInt (py_int val) else PyNone
  | _ => PyNone
  end.

(** ** The diagnosis loops *)

(** [st.find(name).text.strip()] *)
Definition child_text_stripped (name : string) (st : Element)
    : result exception string :=
  match find name st with
  | Some e => let* t := of_text (text e) in Ok (strip t)
  | None => Raise AttributeError
  end.

(** One turn of a diagnosis loop, lines 69-75. *)
Definition diagnosis_step (st : Element) (acc : string) : result exception string :=
  if bool_decide (lower (tag st) = "diagnosisstatement") then
    let* t := child_text_stripped "StmtText" st in
    let acc := acc +:+ t +:+ " " in
    match child_text_stripped "StmtFlag" st with
    | Ok flag => if bool_decide (flag = "ENDSLINE") then Ok (acc +:+ LF) else Ok acc
    | Raise AttributeError => Ok acc
    | Raise e => Raise e
    end
  else Ok acc.

(** A diagnosis loop and the final [strip() if ... else None]. *)
Definition diagnosis_text (root : Element) (parent : string) : result exception pyval :=
  let* acc :=
    for_each diagnosis_step (find_path [parent; "DiagnosisStatement"] root) "" in
  Ok (match acc with
      | EmptyString => PyNone
      | _ => PyStr (strip acc)
      end).

(** ** [extract_xml] *)

Definition FIELDNAMES : list string :=
  ["file_path"; "patient_id"; "patient_age"; "patient_gender"; "patient_race";
   "priority"; "location"; "ecg_date"; "acquisition_software_version";
   "analysis_software_version"; "overread_lastname"; "overread_firstname";
   "admit_diagnosis"; "diagnosis_statement"; "original_diagnosis";
   "VentricularRate"; "AtrialRate"; "PRInterval"; "QRSDuration"; "QTInterval";
   "QTCorrected"; "PAxis"; "RAxis"; "TAxis"; "QRSCount";
   "Original_VentricularRate"; "Original_AtrialRate"; "Original_PRInterval";
   "Original_QRSDuration"; "Original_QTInterval"; "Original_QTCorrected";
   "Original_PAxis"; "Original_RAxis"; "Original_TAxis"; "Original_QRSCount"].

(** The dictionary literal, lines 30-66. *)
Definition ecg_literal (filename : string) (root : Element) : list (string * pyval) :=
  let unknown := PyStr "Unknown" in
  let field steps := findtext (find_path steps root) unknown in
  let resting m := get_int_or_none root ["RestingECGMeasurements"; m] in
  let original m := get_int_or_none root ["OriginalRestingECGMeasurements"; m] in
  [("file_path", PyStr filename);
   ("patient_id", findtext (xpath_descendants "PatientID" root) unknown);
   ("patient_age", get_int_or_none root ["PatientDemographics"; "PatientAge"]);
   ("patient_gender", field ["PatientDemographics"; "Gender"]);
   ("patient_race", field ["PatientDemographics"; "Race"]);
   ("priority", field ["TestDemographics"; "Priority"]);
   ("location", field ["TestDemographics"; "LocationName"]);
   ("ecg_date", field ["TestDemographics"; "AcquisitionDate"]);
   ("acquisition_software_version",
    field ["TestDemographics"; "AcquisitionSoftwareVersion"]);
   ("analysis_software_version",
    field ["TestDemographics"; "AnalysisSoftwareVersion"]);
   ("overread_lastname", field ["TestDemographics"; "OverreaderLastName"]);
   ("overread_firstname", field ["TestDemographics"; "OverreaderFirstName"]);
   ("admit_diagnosis", field ["Order"; "AdmitDiagnosis"]);
   ("diagnosis_statement", PyStr "");
   ("original_diagnosis", PyStr "");
   ("VentricularRate", resting "VentricularRate");
   ("AtrialRate", resting "AtrialRate");
   ("PRInterval", resting "PRInterval");
   ("QRSDuration", resting "QRSDuration");
   ("QTInterval", resting "QTInterval");
   ("QTCorrected", resting "QTCorrected");
   ("PAxis", resting "PAxis");
   ("RAxis", resting "RAxis");
   ("TAxis", resting "TAxis");
   ("QRSCount", resting "QRSCount");
   ("Original_VentricularRate", original "VentricularRate");
   ("Original_AtrialRate", original "AtrialRate");
   ("Original_PRInterval", original "PRInterval");
   ("Original_QRSDuration", original "QRSDuration");
   ("Original_QTInterval", original "QTInterval");
   ("Original_QTCorrected", original "QTCorrected");
   ("Original_PAxis", original "PAxis");
   ("Original_RAxis", original "RAxis");
   ("Original_TAxis", original "TAxis");
   ("Original_QRSCount", original "QRSCount")].

(** [extract_xml] once the file is parsed, lines 30-90. *)
Definition extract_fields (filename : string) (root : Element)
    : result exception (gmap string pyval) :=
  let ECG : gmap string pyval := list_to_map (ecg_literal filename root) in
  let* diagnosis := diagnosis_text root "Diagnosis" in
  let* original := diagnosis_text root "OriginalDiagnosis" in
  Ok (<["original_diagnosis" := original]> (<["diagnosis_statement" := diagnosis]> ECG)).

(** ** [clean_row_for_tsv] *)

(** [s.replace(old, new)] for a non-empty [old]: occurrences are taken
    from the left and do not overlap. [skip] counts the characters of an
    occurrence still to be passed over. *)
Fixpoint replace_from (old new s : string) (skip : nat) : string :=
  match s with
  | EmptyString => EmptyString
  | String c r =>
      match skip with
      | S k => replace_from old new r k
      | O =>
          if String.prefix old s
          then new +:+ replace_from old new r (String.length old - 1)
          else String c (replace_from old new r 0)
      end
  end.

Definition str_replace (old new s : string) : string := replace_from old new s 0.

(** Line 152. The last replacement writes a backslash and the letter n. *)
Definition clean_str (v : string) : string :=
  str_replace LF "\n" (str_replace CR LF (str_replace CRLF LF v)).

Definition clean_value (v : pyval) : pyval :=
  match v with
  | PyStr s => PyStr (clean_str s)
  | _ => v
  end.

Definition clean_row_for_tsv (row_dict : gmap string pyval) : gmap string pyval :=
  foldl (fun cleaned k => <[k := clean_value (default PyNone (row_dict !! k))]> cleaned)
    ∅ FIELDNAMES.

(** ** [write_metadata_batch] *)

(** Why a document gave no row: the file did not parse, or [extract_xml]
    raised after parsing. *)
Inductive failure : Type :=
| ParseFailure
| Raised (e : exception).

(** A line of the output file, as the record handed to the csv writer:
    the rendering of a record as text is the csv module's and is not
    modelled. *)
Inductive tsv_line : Type :=
| Header
| Row (r : gmap string pyval).

(** What is printed: ["Processed {n:,} files... (latest: {xml_file})"],
    ["[WARN] Failed on {xml_file}: {e}"], ["Done. Wrote {n:,} rows to ..."]. *)
Inductive event : Type :=
| Progress (n : Z) (latest : string)
| Warn (xml_file : string) (e : failure)
| Done (n : Z).

Record batch_state : Type := BatchState {
  written : list tsv_line;
  count : Z;
  printed : list event
}.

Section Batch.
Variable parse : string -> option Element.

(** [extract_xml(filename)] *)
Definition extract_xml (filename : string) : result failure (gmap string pyval) :=
  match parse filename with
  | None => Raise ParseFailure
  | Some root =>
      match extract_fields filename root with
      | Ok ecg => Ok ecg
      | Raise e => Raise (Raised e)
      end
  end.

(** The body of the loop, lines 182-190. *)
Definition batch_step (progress_every : Z) (st : batch_state) (xml_file : string)
    : batch_state :=
  match extract_xml xml_file with
  | Ok ecg =>
      let n := count st + 1 in
      BatchState (written st ++ [Row (clean_row_for_tsv ecg)]) n
        (printed st ++
           if negb (progress_every =? 0) && (n mod progress_every =? 0)
           then [Progress n xml_file] else [])
  | Raise e =>
      BatchState (written st) (count st) (printed st ++ [Warn xml_file e])
  end.

(** The output file is [None] when it does not exist. The result is its
    content afterwards and what was printed. *)
Definition write_metadata_batch (xml_paths : list string)
    (out_tsv : option (list tsv_line)) (append : bool) (progress_every : Z)
    : list tsv_line * list event :=
  let file_exists := bool_decide (is_Some out_tsv) in
  let opened := if append then default [] out_tsv else [] in
  let headed :=
    if negb append || (append && negb file_exists) then opened ++ [Header]
    else opened in
  let st := foldl (batch_step progress_every) (BatchState headed 0 []) xml_paths in
  (written st, printed st ++ [Done (count st)]).

End Batch.

(** ** Well-formed directories *)

(** No directory lists a name twice. *)
Fixpoint wf_fs (node : fsnode) : Prop :=
  match node with
  | File => True
  | Dir entries =>
      NoDup (map fst entries)
      /\ (fix all (es : list (string * fsnode)) : Prop :=
            match es with
            | [] => True
            | e :: r => wf_fs e.2 /\ all r
            end) entries
  end.

(** ** Vocabulary of the further statements *)

(** The child [name] is present and has no text ([<name/>]). *)
Definition textless (name : string) (e : Element) : Prop :=
  exists el, find name e = Some el /\ text el = None.

(** The character occurs in the text. *)
Fixpoint occurs (c : ascii) (s : string) : bool :=
  match s with
  | EmptyString => false
  | String a r => Ascii.eqb a c || occurs c r
  end.

(** The length numpy gives the result of an elementwise operation on
    two series whose lengths it accepts. *)
Definition broadcast_length {F : Type} (xs ys : list F) : nat :=
  if decide (length xs = 1%nat) then length ys else length xs.

(** What one diagnosis statement adds to the text: its stripped
    [StmtText], a space, and a line feed when its [StmtFlag] is
    [ENDSLINE]. *)
Definition statement_piece (st : Element) : string :=
  match child_text_stripped "StmtText" st with
  | Ok t =>
      t +:+ " " +:+
      match child_text_stripped "StmtFlag" st with
      | Ok flag => if bool_decide (flag = "ENDSLINE") then LF else ""
      | Raise _ => ""
      end
  | Raise _ => ""
  end.

(** The records of the documents that [extract_xml] returns for, and the
    documents it raises on, in the order of the paths. *)
Definition successes (parse : string -> option Element) (xml_paths : list string)
    : list (gmap string pyval) :=
  omap (fun f => match extract_xml parse f with
                 | Ok ecg => Some ecg
                 | Raise _ => None
                 end) xml_paths.

Definition failures (parse : string -> option Element) (xml_paths : list string)
    : list (string * failure) :=
  omap (fun f => match extract_xml parse f with
                 | Ok _ => None
                 | Raise e => Some (f, e)
                 end) xml_paths.

(** The warnings among the printed events. *)
Definition warnings (evs : list event) : list (string * failure) :=
  omap (fun ev => match ev with
                  | Warn f e => Some (f, e)
                  | _ => None
                  end) evs.

(** The keys written by the derivation step. *)
Definition DERIVED : list string := ["III"; "aVR"; "aVL"; "aVF"].

(** ** Example inputs of the metadata extractor and of the batch *)

Definition statement (t : string) (flag : option string) : Element :=
  Elem "DiagnosisStatement" None
    (match flag with
     | Some f => [leaf "StmtFlag" f]
     | None => []
     end ++ [leaf "StmtText" t]).

Definition doc_metadata : Element :=
  Elem "RestingECG" None
    [Elem "PatientDemographics" None
       [leaf "PatientID" "P1"; leaf "PatientAge" " 063 "; leaf "Gender" "F"];
     Elem "RestingECGMeasurements" None
       [leaf "VentricularRate" "71"; leaf "RAxis" "-30"; Elem "PAxis" None []];
     Elem "Diagnosis" None
       [statement "Sinus rhythm" (Some "ENDSLINE"); statement " Normal ECG " None;
        statement "x" (Some "ENDSLINE")]].

(** A statement without [StmtText]. *)
Definition doc_bad_statement : Element :=
  Elem "RestingECG" None
    [Elem "OriginalDiagnosis" None
       [statement "Sinus rhythm" None;
        Elem "DiagnosisStatement" None [leaf "StmtFlag" "ENDSLINE"]]].

(** Two files parse, any other does not. *)
Definition example_parse (filename : string) : option Element :=
  if bool_decide (filename = "a.xml") then Some doc_metadata
  else if bool_decide (filename = "bad.xml") then Some doc_bad_statement
  else None.

Definition extracted (r : result exception (gmap string pyval)) : gmap string pyval :=
  match r with
  | Ok ecg => ecg
  | Raise _ => ∅
  end.

Definition collected (r : result exception (state (F:=Q))) : state (F:=Q) :=
  match r with
  | Ok st => st
  | Raise _ => State ∅ []
  end.

(** The call returned. *)
Definition is_ok {E A : Type} (r : result E A) : Prop :=
  match r with
  | Ok _ => True
  | Raise _ => False
  end.

(** The paths of the integer fields of the record, lines 33 and 46-65. *)
Definition MEASUREMENTS : list string :=
  ["VentricularRate"; "AtrialRate"; "PRInterval"; "QRSDuration"; "QTInterval";
   "QTCorrected"; "PAxis"; "RAxis"; "TAxis"; "QRSCount"].

Definition INT_PATHS : list (list string) :=
  ["PatientDemographics"; "PatientAge"]
  :: map (fun m => ["RestingECGMeasurements"; m]) MEASUREMENTS
  ++ map (fun m => ["OriginalRestingECGMeasurements"; m]) MEASUREMENTS.

(** The text that [get_int_or_none] reads for a path is plain: ASCII,
    and no longer than the smallest limit the interpreter can be given
    for the digits [int] converts (4300 by default, 640 at least). On a
    plain text [int] raises nothing when [isdigit] holds. *)
Definition plain_int_text (root : Element) (steps : list string) : Prop :=
  match find_path steps root with
  | el :: _ =>
      match text el with
      | Some t => only_ascii t = true /\ (String.length t <= 640)%nat
      | None => True
      end
  | [] => True
  end.

Definition int_fields_plain (root : Element) : Prop :=
  Forall (plain_int_text root) INT_PATHS.

(** A patient age, and a statement without [StmtText]. *)
Definition doc_bad_original : Element :=
  Elem "RestingECG" None
    [Elem "PatientDemographics" None [leaf "PatientAge" "41"];
     Elem "OriginalDiagnosis" None
       [Elem "DiagnosisStatement" None [leaf "StmtFlag" "ENDSLINE"]]].

(** Two characters are the same letter when they are equal or are the
    two cases of one ASCII letter; two texts are equal up to case when
    they have the same length and the same letters. *)
Definition same_letter (a b : ascii) : bool :=
  let m := code a in
  let n := code b in
  (m =? n)
  || ((65 <=? m) && (m <=? 90) && (n =? m + 32))
  || ((65 <=? n) && (n <=? 90) && (m =? n + 32)).

Fixpoint caseless_eq (s t : string) : bool :=
  match s, t with
  | EmptyString, EmptyString => true
  | String a s', String b t' => same_letter a b && caseless_eq s' t'
  | _, _ => false
  end.

(** * Properties *)

(** ** Bytes and 16-bit fields *)

Lemma uchar_is_byte (z : Z) : is_byte (uchar z).
Proof.
  unfold is_byte, uchar. change 255 with (Z.ones 8).
  rewrite Z.land_ones by lia. apply Z.mod_pos_bound. lia.
Qed.

Lemma a2b_loop_bytes (s : string) :
  forall q l p acc bytes,
    Forall is_byte acc ->
    a2b_loop s q l p acc = Ok bytes ->
    Forall is_byte bytes.
Proof.
  induction s as [|c s IH]; intros q l p acc bytes Hacc; simpl.
  - destruct (q =? 0); [congruence|]. destruct (q =? 1); discriminate.
  - assert (Hsnoc : forall z, Forall is_byte (acc ++ [uchar z])).
    { intros z. apply Forall_app. split; [exact Hacc|].
      constructor; [apply uchar_is_byte | constructor]. }
    destruct (Ascii.eqb c BASE64_PAD).
    + destruct (2 <=? q); [destruct (4 <=? q + (p + 1))|]; eauto; congruence.
    + destruct (table_a2b_base64 c); [|eauto].
      destruct (q =? 0); [eauto|]. destruct (q =? 1); [eauto|].
      destruct (q =? 2); eauto.
Qed.

Lemma b64decode_bytes (s : string) (bytes : list Z) :
  b64decode s = Ok bytes -> Forall is_byte bytes.
Proof.
  unfold b64decode, a2b_base64. destruct (only_ascii s); [|discriminate].
  apply a2b_loop_bytes. constructor.
Qed.

Lemma byte_high_bits (b n : Z) : is_byte b -> 8 <= n -> Z.testbit b n = false.
Proof.
  intros [H0 H1] Hn. destruct (Z.eq_dec b 0) as [->|Hb].
  - apply Z.bits_0.
  - apply Z.bits_above_log2; [lia|].
    assert (Z.log2 b < 8); [|lia]. apply Z.log2_lt_pow2; lia.
Qed.

Lemma le_bytes_sum (b0 b1 : Z) :
  is_byte b0 -> Z.lor b0 (Z.shiftl b1 8) = b0 + 256 * b1.
Proof.
  intros Hb0.
  assert (Hland : Z.land b0 (Z.shiftl b1 8) = 0).
  { apply Z.bits_inj'. intros n Hn. rewrite Z.land_spec, Z.bits_0.
    destruct (Z.lt_ge_cases n 8).
    - rewrite Z.shiftl_spec_low by lia. apply andb_false_r.
    - rewrite (byte_high_bits b0 n) by (auto; lia). reflexivity. }
  pose proof (Z.add_lor_land b0 (Z.shiftl b1 8)) as Hsum.
  rewrite Hland in Hsum. rewrite Z.shiftl_mul_pow2 in * by lia.
  change (2 ^ 8) with 256 in *. lia.
Qed.

(** [int16_le] is the two's-complement reading of the little-endian pair. *)
Lemma int16_le_spec (b0 b1 : Z) :
  is_byte b0 -> is_byte b1 ->
  int16_le b0 b1 =
    (if b0 + 256 * b1 <? 32768 then b0 + 256 * b1 else b0 + 256 * b1 - 65536).
Proof.
  intros Hb0 Hb1. unfold int16_le. cbv zeta.
  rewrite le_bytes_sum by assumption.
  unfold is_byte in *. set (u := b0 + 256 * b1) in *.
  assert (Hu : 0 <= u < 65536) by (subst u; lia).
  destruct (Z.ltb_spec u 32768) as [Hlt|Hge].
  - destruct (Z.testbit u 15) eqn:Hbit; [|reflexivity].
    apply Z.testbit_true in Hbit; [|lia].
    change (2 ^ 15) with 32768 in Hbit.
    rewrite Z.div_small in Hbit by lia. discriminate.
  - destruct (Z.testbit u 15) eqn:Hbit; [reflexivity|].
    assert (Ht : Z.testbit u 15 = true); [|congruence].
    apply Z.testbit_true; [lia|]. change (2 ^ 15) with 32768.
    replace (u / 32768) with 1; [reflexivity|].
    apply Z.div_unique with (r := u - 32768); lia.
Qed.

Lemma unpack_h_lookup (buf : list Z) :
  forall (k : nat) (b0 b1 : Z),
    buf !! (2 * k)%nat = Some b0 ->
    buf !! (2 * k + 1)%nat = Some b1 ->
    unpack_h buf !! k = Some (int16_le b0 b1).
Proof.
  induction buf as [buf IH] using (induction_ltof1 _ (@length Z)).
  unfold ltof in IH. intros k b0 b1 H0 H1.
  destruct buf as [|x [|y r]]; try discriminate.
  - destruct k; simpl in H1; discriminate.
  - destruct k as [|k].
    + simpl in *. congruence.
    + replace (2 * S k)%nat with (S (S (2 * k))) in H0 by lia.
      replace (2 * S k + 1)%nat with (S (S (2 * k + 1))) in H1 by lia.
      simpl in H0, H1. simpl. apply IH; [simpl; lia | assumption | assumption].
Qed.

Lemma unpack_h_length (buf : list Z) :
  length (unpack_h buf) = (length buf / 2)%nat.
Proof.
  induction buf as [buf IH] using (induction_ltof1 _ (@length Z)).
  unfold ltof in IH. destruct buf as [|x [|y r]]; try reflexivity.
  cbn [unpack_h length]. rewrite IH by (simpl; lia).
  change (S (S (length r))) with (1 * 2 + length r)%nat.
  rewrite Nat.div_add_l by lia. lia.
Qed.

Lemma even_prefix_length (n : nat) : (n / 2 * 2 <= n)%nat.
Proof. pose proof (Nat.div_mod_eq n 2). lia. Qed.

(** ** The decoder *)

Example decode_roundtrip :
  decode_waveform "AQD//w==" (2 # 1)%Q = Samples [(1 # 1) * (2 # 1); (-1 # 1) * (2 # 1)]%Q.
Proof. vm_compute. reflexivity. Qed.

Section DecoderProperties.
Context {F : Type} {NE : NumEngine F}.

(** [struct.unpack] is always handed a buffer of the size its format
    asks for, so the only failures are those of [b64decode]. *)
Lemma decode_waveform_try_eq (blob : string) (scale : F) :
  decode_waveform_try blob scale =
    let* bytes := b64decode blob in
    Ok (map (fun s => fmul (of_int s) scale)
          (unpack_h (take (length bytes / 2 * 2) bytes))).
Proof.
  unfold decode_waveform_try. destruct (b64decode blob) as [bytes|e]; simpl; [|reflexivity].
  unfold struct_unpack_h.
  rewrite length_take, Nat.min_l by apply even_prefix_length.
  destruct (decide _) as [_|Hne]; [reflexivity | lia].
Qed.

Lemma decode_waveform_ok (blob : string) (scale : F) (bytes : list Z) :
  b64decode blob = Ok bytes ->
  decode_waveform blob scale =
    Samples (map (fun s => fmul (of_int s) scale)
               (unpack_h (take (length bytes / 2 * 2) bytes))).
Proof.
  intros H. unfold decode_waveform. rewrite decode_waveform_try_eq, H. reflexivity.
Qed.

Lemma decode_waveform_raise (blob : string) (scale : F) (e : decode_exn) :
  b64decode blob = Raise e ->
  decode_waveform blob scale = ErrorText (marker e).
Proof.
  intros H. unfold decode_waveform. rewrite decode_waveform_try_eq, H. reflexivity.
Qed.

Lemma decoded_length (scale : F) (bytes : list Z) :
  length (map (fun s => fmul (of_int s) scale)
            (unpack_h (take (length bytes / 2 * 2) bytes)))
  = (length bytes / 2)%nat.
Proof.
  rewrite length_map, unpack_h_length, length_take, Nat.min_l
    by apply even_prefix_length.
  apply Nat.div_mul. lia.
Qed.

(** C1: a blob that base64-decodes to [L] bytes yields exactly
    [L / 2] samples; sample [k] is the signed 16-bit little-endian value
    of bytes [2k] and [2k+1] times [scale]; an odd trailing byte is
    dropped; the empty blob yields the empty series. *)
Theorem decode_waveform_samples (blob : string) (scale : F) (bytes : list Z) :
  b64decode blob = Ok bytes ->
  (exists xs : list F,
      decode_waveform blob scale = Samples xs
      /\ length xs = (length bytes / 2)%nat
      /\ forall (k : nat) (b0 b1 : Z),
          bytes !! (2 * k)%nat = Some b0 ->
          bytes !! (2 * k + 1)%nat = Some b1 ->
          xs !! k =
            Some (fmul (of_int (if b0 + 256 * b1 <? 32768
                                then b0 + 256 * b1
                                else b0 + 256 * b1 - 65536)) scale))
  /\ decode_waveform "" scale = Samples [].
Proof.
  intros Hdec. split; [|reflexivity].
  eexists. split; [apply decode_waveform_ok; exact Hdec|].
  split; [apply decoded_length|].
  intros k b0 b1 H0 H1.
    pose proof (b64decode_bytes _ _ Hdec) as Hbytes.
    rewrite Forall_lookup in Hbytes.
    rewrite <- int16_le_spec by eauto.
    rewrite list_lookup_fmap.
    assert (Hk : (2 * k + 1 < length bytes / 2 * 2)%nat).
    { apply lookup_lt_Some in H1. pose proof (Nat.div_mod_eq (length bytes) 2).
      pose proof (Nat.mod_upper_bound (length bytes) 2). lia. }
    erewrite unpack_h_lookup; [reflexivity| |].
    + rewrite lookup_take_lt by lia. exact H0.
    + rewrite lookup_take_lt by lia. exact H1.
Qed.




End DecoderProperties.

(** ** Text *)

Lemma ascii_upper_not_a (c : ascii) : ascii_upper c <> "a"%char.
Proof. destruct c as [[] [] [] [] [] [] [] []]; vm_compute; discriminate. Qed.

(** No uppercased text is one of the mixed-case keys. *)
Lemma upper_not_augmented (s : string) :
  upper s <> "aVR" /\ upper s <> "aVL" /\ upper s <> "aVF".
Proof.
  destruct s as [|c r]; simpl; [repeat split; discriminate|].
  pose proof (ascii_upper_not_a c).
  repeat split; intros [= Hc _]; contradiction.
Qed.

(** ** Loops *)

Lemma for_each_app {S X : Type} (body : X -> S -> result exception S)
    (xs ys : list X) (st : S) :
  for_each body (xs ++ ys) st =
    let* st' := for_each body xs st in for_each body ys st'.
Proof.
  revert st. induction xs as [|x xs IH]; intros st; simpl; [reflexivity|].
  destruct (body x st); simpl; [apply IH | reflexivity].
Qed.

Lemma for_each_invariant {S X : Type} (P : S -> Prop)
    (body : X -> S -> result exception S) (xs : list X) :
  (forall x st st', body x st = Ok st' -> P st -> P st') ->
  forall st st', for_each body xs st = Ok st' -> P st -> P st'.
Proof.
  intros Hbody. induction xs as [|x xs IH]; intros st st'; simpl.
  - intros [= <-]. auto.
  - destruct (body x st) as [st1|e] eqn:Hx; simpl; [|discriminate]. eauto.
Qed.

Lemma for_each_skip {S X : Type} (body : X -> S -> result exception S)
    (xs : list X) (st : S) :
  Forall (fun x => forall st, body x st = Ok st) xs ->
  for_each body xs st = Ok st.
Proof.
  induction 1 as [|x xs Hx _ IH]; simpl; [reflexivity|].
  rewrite Hx. exact IH.
Qed.

(** ** The assembler *)

Section AssemblerProperties.
Context {F : Type} {NE : NumEngine F}.

Lemma dom_initial_leads :
  dom (initial_leads (F:=F)) = list_to_set LEAD_NAMES.
Proof. unfold initial_leads. rewrite dom_list_to_map_L. reflexivity. Qed.

Lemma lookup_initial_leads (k : string) :
  k ∈ LEAD_NAMES -> initial_leads (F:=F) !! k = Some (Float1d []).
Proof.
  unfold LEAD_NAMES. rewrite !elem_of_cons, elem_of_nil.
  intros H. repeat (destruct H as [->|H]; [reflexivity|]). contradiction.
Qed.

(** *** The key set is closed *)

Lemma process_lead_dom (ld : Element) (st st' : state) :
  process_lead ld st = Ok st' -> dom (leads st') = dom (leads st).
Proof.
  unfold process_lead.
  destruct (lead_id_of ld) as [k|]; simpl; [|discriminate].
  destruct (waveform_text_of ld) as [b|]; simpl; [|discriminate].
  destruct (leads st !! k) as [v|] eqn:Hk.
  - destruct (scale_of ld) as [sc|]; simpl; [|discriminate].
    intros [= <-]. simpl. apply dom_insert_lookup_L. eauto.
  - intros [= <-]. reflexivity.
Qed.

Lemma process_waveform_invariant (P : state -> Prop) (w : Element) (st st' : state) :
  (forall ld s s', process_lead ld s = Ok s' -> P s -> P s') ->
  process_waveform w st = Ok st' -> P st -> P st'.
Proof.
  intros Hstep. unfold process_waveform.
  destruct (find "WaveformType" w) as [e|]; simpl; [|discriminate].
  destruct (of_text (text e)) as [t|]; simpl; [|discriminate].
  case_bool_decide.
  - intros [= <-]. auto.
  - apply for_each_invariant. exact Hstep.
Qed.

Lemma collect_invariant (P : state -> Prop) (root : Element) (st : state) :
  (forall ld s s', process_lead ld s = Ok s' -> P s -> P s') ->
  P (State initial_leads []) ->
  collect root = Ok st -> P st.
Proof.
  intros Hstep H0 Hc. unfold collect in Hc.
  eapply for_each_invariant; [|exact Hc|exact H0].
  intros w s s'. apply process_waveform_invariant. exact Hstep.
Qed.

Lemma collect_dom (root : Element) (st : state) :
  collect root = Ok st -> dom (leads st) = list_to_set LEAD_NAMES.
Proof.
  apply (collect_invariant (fun s => dom (leads s) = list_to_set LEAD_NAMES)).
  - intros ld s s' Hs <-. eapply process_lead_dom, Hs.
  - apply dom_initial_leads.
Qed.

(** *** No lead node writes an augmented lead *)

Lemma lead_id_of_not_augmented (ld : Element) (k : string) :
  lead_id_of ld = Ok k -> k <> "aVR" /\ k <> "aVL" /\ k <> "aVF".
Proof.
  unfold lead_id_of. destruct (find "LeadID" ld) as [e|].
  - destruct (of_text (text e)) as [t|]; simpl; [|discriminate].
    intros [= <-]. apply upper_not_augmented.
  - intros [= <-]. repeat split; discriminate.
Qed.

Lemma process_lead_augmented (ld : Element) (st st' : state) (k : string) :
  process_lead ld st = Ok st' ->
  k = "aVR" \/ k = "aVL" \/ k = "aVF" ->
  leads st' !! k = leads st !! k.
Proof.
  unfold process_lead. intros H Hk.
  destruct (lead_id_of ld) as [id|] eqn:Hid; simpl in H; [|discriminate].
  apply lead_id_of_not_augmented in Hid as (HR & HL & HF).
  destruct (waveform_text_of ld) as [b|]; simpl in H; [|discriminate].
  destruct (leads st !! id) as [v|].
  - destruct (scale_of ld) as [sc|]; simpl in H; [|discriminate].
    injection H as <-. simpl. apply lookup_insert_ne.
    destruct Hk as [-> | [-> | ->]]; assumption.
  - injection H as <-. reflexivity.
Qed.

Lemma collect_augmented (root : Element) (st : state) (k : string) :
  collect root = Ok st ->
  k = "aVR" \/ k = "aVL" \/ k = "aVF" ->
  leads st !! k = Some (Float1d []).
Proof.
  intros Hc Hk. revert Hc.
  apply (collect_invariant (fun s => leads s !! k = Some (Float1d []))).
  - intros ld s s' Hs <-. eapply process_lead_augmented; eauto.
  - apply lookup_initial_leads. unfold LEAD_NAMES.
    destruct Hk as [-> | [-> | ->]]; set_solver.
Qed.

(** *** The derivation step *)

Lemma derive_eq (d : gmap string (ndarray F)) :
  derive d =
    let* ii := getitem d "II" in
    let* i := getitem d "I" in
    let* v3 := expr_III i ii in
    let* vr := expr_aVR i ii in
    let* vl := expr_aVL i ii in
    let* vf := expr_aVF i ii in
    Ok (<["aVF" := vf]> (<["aVL" := vl]> (<["aVR" := vr]> (<["III" := v3]> d)))).
Proof.
  unfold derive, getitem, expr_III, expr_aVR, expr_aVL, expr_aVF.
  destruct (d !! "II") as [ii|] eqn:HII; simpl; [|reflexivity].
  destruct (d !! "I") as [i|] eqn:HI; simpl; [|reflexivity].
  destruct (np_sub ii i) as [v3|]; simpl; [|reflexivity].
  rewrite !lookup_insert_ne by discriminate. rewrite HI, HII. simpl.
  destruct (np_add i ii) as [s|]; simpl; [|reflexivity].
  destruct (np_neg s) as [n|]; simpl; [|reflexivity].
  destruct (np_div2 n) as [vr|]; simpl; [|reflexivity].
  rewrite !lookup_insert_ne by discriminate. rewrite HI, HII. simpl.
  destruct (np_div2 ii) as [h|]; simpl; [|reflexivity].
  destruct (np_sub i h) as [vl|]; simpl; [|reflexivity].
  rewrite !lookup_insert_ne by discriminate. rewrite HI, HII. simpl.
  destruct (np_div2 i) as [h'|]; simpl; [|reflexivity].
  destruct (np_sub ii h') as [vf|]; simpl; reflexivity.
Qed.

Lemma derive_ok (d d' : gmap string (ndarray F)) :
  derive d = Ok d' ->
  exists i ii v3 vr vl vf,
    d !! "I" = Some i /\ d !! "II" = Some ii
    /\ expr_III i ii = Ok v3 /\ expr_aVR i ii = Ok vr
    /\ expr_aVL i ii = Ok vl /\ expr_aVF i ii = Ok vf
    /\ d' = <["aVF" := vf]> (<["aVL" := vl]> (<["aVR" := vr]> (<["III" := v3]> d))).
Proof.
  rewrite derive_eq. unfold getitem.
  destruct (d !! "II") as [ii|]; simpl; [|discriminate].
  destruct (d !! "I") as [i|]; simpl; [|discriminate].
  destruct (expr_III i ii) as [v3|] eqn:H3; simpl; [|discriminate].
  destruct (expr_aVR i ii) as [vr|] eqn:HR; simpl; [|discriminate].
  destruct (expr_aVL i ii) as [vl|] eqn:HL; simpl; [|discriminate].
  destruct (expr_aVF i ii) as [vf|] eqn:HF; simpl; [|discriminate].
  intros [= <-]. exists i, ii, v3, vr, vl, vf. repeat split; assumption.
Qed.

(** What a returned dictionary holds, key by key. *)
Lemma derive_lookups (d d' : gmap string (ndarray F)) :
  derive d = Ok d' ->
  exists i ii v3 vr vl vf,
    d !! "I" = Some i /\ d !! "II" = Some ii
    /\ d' !! "I" = Some i /\ d' !! "II" = Some ii
    /\ expr_III i ii = Ok v3 /\ d' !! "III" = Some v3
    /\ expr_aVR i ii = Ok vr /\ d' !! "aVR" = Some vr
    /\ expr_aVL i ii = Ok vl /\ d' !! "aVL" = Some vl
    /\ expr_aVF i ii = Ok vf /\ d' !! "aVF" = Some vf
    /\ dom d' = dom d ∪ list_to_set ["III"; "aVR"; "aVL"; "aVF"].
Proof.
  intros H. apply derive_ok in H as (i & ii & v3 & vr & vl & vf & HI & HII & H3 & HR & HL & HF & ->).
  exists i, ii, v3, vr, vl, vf.
  repeat match goal with |- _ /\ _ => split end; try assumption;
    try (by simplify_map_eq).
  rewrite !dom_insert_L. set_solver.
Qed.

Lemma names_closed :
  (list_to_set LEAD_NAMES ∪ list_to_set ["III"; "aVR"; "aVL"; "aVF"] : gset string)
  = list_to_set LEAD_NAMES.
Proof. vm_compute. reflexivity. Qed.

Lemma derive_empty (d : gmap string (ndarray F)) :
  d !! "I" = Some (Float1d []) -> d !! "II" = Some (Float1d []) ->
  derive d =
    Ok (<["aVF" := Float1d []]> (<["aVL" := Float1d []]>
         (<["aVR" := Float1d []]> (<["III" := Float1d []]> d)))).
Proof.
  intros HI HII. rewrite derive_eq. unfold getitem. rewrite HI, HII.
  reflexivity.
Qed.

Lemma get_lead_data_ok (root : Element) (d : gmap string (ndarray F)) :
  get_lead_data root = Ok d ->
  exists st, collect root = Ok st /\ derive (leads st) = Ok d.
Proof.
  unfold get_lead_data. destruct (collect root) as [st|]; simpl; [|discriminate].
  eauto.
Qed.

(** *** Shapes *)

Lemma broadcast2_agree (f : F -> F -> F) (xs ys : list F) :
  shapes_agree xs ys ->
  exists zs, broadcast2 f (Float1d xs) (Float1d ys) = Ok (Float1d zs).
Proof.
  unfold broadcast2. intros H. destruct (decide _); [eauto|].
  destruct H as [H | [H | H]]; [contradiction| |].
  - destruct xs as [|x [|]]; try discriminate. eauto.
  - destruct ys as [|y [|]]; try discriminate.
    destruct xs as [|x [|]]; eauto.
Qed.

Lemma broadcast2_disagree (f : F -> F -> F) (xs ys : list F) :
  ~ shapes_agree xs ys ->
  broadcast2 f (Float1d xs) (Float1d ys) = Raise ValueError.
Proof.
  unfold broadcast2, shapes_agree. intros H.
  destruct (decide _); [tauto|].
  destruct xs as [|x [|]]; [| exfalso; apply H; auto |];
    destruct ys as [|y [|]]; try reflexivity; exfalso; apply H; auto.
Qed.

Lemma broadcast2_equal (f : F -> F -> F) (xs ys : list F) :
  length xs = length ys ->
  broadcast2 f (Float1d xs) (Float1d ys) = Ok (Float1d (zip_with f xs ys)).
Proof. intros H. unfold broadcast2. rewrite decide_True by exact H. reflexivity. Qed.

Lemma derive_agree (d : gmap string (ndarray F)) (xs ys : list F) :
  d !! "I" = Some (Float1d xs) -> d !! "II" = Some (Float1d ys) ->
  shapes_agree xs ys ->
  exists d', derive d = Ok d'.
Proof.
  intros HI HII Hs. rewrite derive_eq. unfold getitem. rewrite HI, HII.
  assert (Hs' : shapes_agree ys xs) by (unfold shapes_agree in *; intuition).
  unfold expr_III, expr_aVR, expr_aVL, expr_aVF, np_sub, np_add, np_neg, np_div2.
  cbn [rbind].
  destruct (broadcast2_agree fsub ys xs Hs') as [v3 ->]. cbn [rbind].
  destruct (broadcast2_agree fadd xs ys Hs) as [s ->]. cbn [rbind].
  destruct (broadcast2_agree fsub xs (map (fun x => fdiv x (of_int 2)) ys))
    as [vl ->].
  { unfold shapes_agree in *. rewrite length_map. exact Hs. }
  cbn [rbind].
  destruct (broadcast2_agree fsub ys (map (fun x => fdiv x (of_int 2)) xs))
    as [vf ->].
  { unfold shapes_agree in *. rewrite length_map. exact Hs'. }
  cbn [rbind]. eauto.
Qed.

Lemma derive_disagree (d : gmap string (ndarray F)) (xs ys : list F) :
  d !! "I" = Some (Float1d xs) -> d !! "II" = Some (Float1d ys) ->
  ~ shapes_agree xs ys ->
  derive d = Raise ValueError.
Proof.
  intros HI HII Hs. unfold derive, getitem. rewrite HI, HII. cbn [rbind].
  unfold np_sub. rewrite broadcast2_disagree; [reflexivity|].
  unfold shapes_agree in *. intuition.
Qed.

Lemma derive_text (d : gmap string (ndarray F)) (i ii : ndarray F) :
  d !! "I" = Some i -> d !! "II" = Some ii ->
  (exists s, i = Str0d s) \/ (exists s, ii = Str0d s) ->
  derive d = Raise TypeError.
Proof.
  intros HI HII H. unfold derive, getitem. rewrite HI, HII. simpl.
  destruct H as [[s ->] | [s ->]]; [destruct ii|]; reflexivity.
Qed.

Lemma process_waveform_typed (w : Element) (st : state) (t : string) :
  section_type w = Some t ->
  process_waveform w st =
    if bool_decide (lower t <> "rhythm") then Ok st
    else for_each process_lead (xpath_descendants "LeadData" w) st.
Proof.
  unfold section_type, process_waveform.
  destruct (find "WaveformType" w) as [e|]; [|discriminate].
  intros Ht. cbn [rbind]. rewrite Ht. reflexivity.
Qed.

End AssemblerProperties.

(** ** The claims about the assembler *)

Section AssemblerClaims.
Context {F : Type} {NE : NumEngine F}.

Lemma exprs_equal_length (xs ys : list F) :
  length xs = length ys ->
  expr_III (Float1d xs) (Float1d ys) = Ok (Float1d (zip_with fsub ys xs))
  /\ expr_aVR (Float1d xs) (Float1d ys)
     = Ok (Float1d (map half (map fneg (zip_with fadd xs ys))))
  /\ expr_aVL (Float1d xs) (Float1d ys)
     = Ok (Float1d (zip_with fsub xs (map half ys)))
  /\ expr_aVF (Float1d xs) (Float1d ys)
     = Ok (Float1d (zip_with fsub ys (map half xs))).
Proof.
  intros H. unfold expr_III, expr_aVR, expr_aVL, expr_aVF, np_sub, np_add.
  cbn [np_div2 rbind].
  rewrite !broadcast2_equal by (rewrite ?length_map; congruence).
  repeat split; reflexivity.
Qed.

(** C2: in a returned lead set whose I and II are series of one length
    [m], at every index [k < m]: III = II - I, aVR = -(I + II) / 2,
    aVL = I - II / 2, aVF = II - I / 2. *)
Theorem derived_leads_pointwise (root : Element) (d : gmap string (ndarray F))
    (xs ys : list F) (m k : nat) :
  get_lead_data root = Ok d ->
  d !! "I" = Some (Float1d xs) ->
  d !! "II" = Some (Float1d ys) ->
  length xs = m -> length ys = m -> (k < m)%nat ->
  exists (x y : F) (iii avr avl avf : list F),
    xs !! k = Some x /\ ys !! k = Some y
    /\ d !! "III" = Some (Float1d iii) /\ iii !! k = Some (fsub y x)
    /\ d !! "aVR" = Some (Float1d avr)
    /\ avr !! k = Some (fdiv (fneg (fadd x y)) (of_int 2))
    /\ d !! "aVL" = Some (Float1d avl)
    /\ avl !! k = Some (fsub x (fdiv y (of_int 2)))
    /\ d !! "aVF" = Some (Float1d avf)
    /\ avf !! k = Some (fsub y (fdiv x (of_int 2))).
Proof.
  intros Hget HI HII Hxs Hys Hk.
  apply get_lead_data_ok in Hget as (st & _ & Hder).
  apply derive_lookups in Hder
    as (i & ii & v3 & vr & vl & vf & _ & _ & HI' & HII'
        & H3 & L3 & HR & LR & HL & LL & HF & LF & _).
  rewrite HI in HI'. rewrite HII in HII'.
  injection HI' as <-. injection HII' as <-.
  destruct (exprs_equal_length xs ys) as (E3 & ER & EL & EF); [congruence|].
  rewrite E3 in H3. rewrite ER in HR. rewrite EL in HL. rewrite EF in HF.
  injection H3 as <-. injection HR as <-. injection HL as <-. injection HF as <-.
  destruct (lookup_lt_is_Some_2 xs k) as [x Hx]; [lia|].
  destruct (lookup_lt_is_Some_2 ys k) as [y Hy]; [lia|].
  exists x, y. do 4 eexists.
  split; [exact Hx|]. split; [exact Hy|].
  split; [exact L3|]. split.
  { rewrite lookup_zip_with, Hx, Hy. reflexivity. }
  split; [exact LR|]. split.
  { rewrite !list_lookup_fmap, lookup_zip_with, Hx, Hy. reflexivity. }
  split; [exact LL|]. split.
  { rewrite lookup_zip_with, list_lookup_fmap, Hx, Hy. reflexivity. }
  split; [exact LF|].
  rewrite lookup_zip_with, list_lookup_fmap, Hx, Hy. reflexivity.
Qed.

(** C3, as the code has it: when the blob of a lead fails to decode, the
    lead node raises nothing and stores the decoder's error text under
    that lead's key, every other key is left as it was, and the loop
    goes on with the lead nodes that follow. *)
Theorem decode_failure_contained (ld : Element) (k blob : string) (scale : F)
    (e : decode_exn) :
  lead_id_of ld = Ok k ->
  waveform_text_of ld = Ok blob ->
  scale_of ld = Ok scale ->
  b64decode blob = Raise e ->
  forall (before after : list Element) (st0 st1 : state),
    for_each process_lead before st0 = Ok st1 ->
    is_Some (leads st1 !! k) ->
    exists st2,
      process_lead ld st1 = Ok st2
      /\ leads st2 !! k = Some (Str0d (marker e))
      /\ (forall k', k' <> k -> leads st2 !! k' = leads st1 !! k')
      /\ stdout st2 = stdout st1
      /\ for_each process_lead (before ++ ld :: after) st0
         = for_each process_lead after st2.
Proof.
  intros Hid Hblob Hscale Hdec before after st0 st1 Hbefore [v Hv].
  assert (Hstep : process_lead ld st1 =
                  Ok (State (<[k := Str0d (marker e)]> (leads st1)) (stdout st1))).
  { unfold process_lead. rewrite Hid, Hblob. cbn [rbind]. rewrite Hv, Hscale.
    cbn [rbind]. rewrite (decode_waveform_raise _ _ _ Hdec). reflexivity. }
  eexists. split; [exact Hstep|]. cbn [leads stdout].
  split; [apply lookup_insert_eq|].
  split; [intros k' Hk'; apply lookup_insert_ne; congruence|].
  split; [reflexivity|].
  rewrite for_each_app, Hbefore. cbn [rbind for_each]. rewrite Hstep. reflexivity.
Qed.

(** C5: a returned lead set has exactly the twelve lead keys; its III,
    aVR, aVL and aVF are the values of II - I, -(I + II) / 2, I - II / 2
    and II - I / 2 computed from the I and II that the loops left in the
    dictionary, whatever these are, and its I and II are those same
    values; and when I and II were never populated the derivation runs on
    the empty series, raises nothing and leaves the four derived leads
    empty. *)
Theorem lead_set_fully_keyed (root : Element) :
  (forall d, get_lead_data root = Ok d ->
             dom d = list_to_set LEAD_NAMES
             /\ exists st i ii v3 vr vl vf,
                 collect root = Ok st /\ derive (leads st) = Ok d
                 /\ leads st !! "I" = Some i /\ leads st !! "II" = Some ii
                 /\ d !! "I" = Some i /\ d !! "II" = Some ii
                 /\ np_sub ii i = Ok v3 /\ d !! "III" = Some v3
                 /\ (let* s := np_add i ii in let* n := np_neg s in np_div2 n)
                    = Ok vr
                 /\ d !! "aVR" = Some vr
                 /\ (let* h := np_div2 ii in np_sub i h) = Ok vl
                 /\ d !! "aVL" = Some vl
                 /\ (let* h := np_div2 i in np_sub ii h) = Ok vf
                 /\ d !! "aVF" = Some vf)
  /\ (forall st, collect root = Ok st ->
                 leads st !! "I" = Some (Float1d []) ->
                 leads st !! "II" = Some (Float1d []) ->
                 exists d, get_lead_data root = Ok d
                           /\ d !! "III" = Some (Float1d [])
                           /\ d !! "aVR" = Some (Float1d [])
                           /\ d !! "aVL" = Some (Float1d [])
                           /\ d !! "aVF" = Some (Float1d [])).
Proof.
  split.
  - intros d Hget. apply get_lead_data_ok in Hget as (st & Hc & Hder).
    pose proof (collect_dom _ _ Hc) as Hdom.
    pose proof Hder as Hlook.
    apply derive_lookups in Hlook
      as (i & ii & v3 & vr & vl & vf & HI & HII & HI' & HII'
          & H3 & L3 & HR & LR & HL & LL & HF & LF & Hd).
    split.
    + rewrite Hd, Hdom. apply names_closed.
    + exists st, i, ii, v3, vr, vl, vf.
      repeat match goal with |- _ /\ _ => split end; assumption.
  - intros st Hc HI HII. unfold get_lead_data. rewrite Hc. cbn [rbind].
    rewrite (derive_empty _ HI HII).
    eexists. split; [reflexivity|]. by simplify_map_eq.
Qed.

Lemma ascii_lower_same (a b : ascii) :
  In b ["r"; "h"; "y"; "t"; "m"]%char ->
  Ascii.eqb (ascii_lower a) b = same_letter a b.
Proof.
  intros [<- | [<- | [<- | [<- | [<- | []]]]]];
    destruct a as [[] [] [] [] [] [] [] []]; reflexivity.
Qed.

Lemma lower_caseless (u : string) :
  Forall (fun b => In b ["r"; "h"; "y"; "t"; "m"]%char) (list_ascii_of_string u) ->
  forall t, String.eqb (lower t) u = caseless_eq t u.
Proof.
  induction u as [|b u IH]; intros Hu t.
  - destruct t; reflexivity.
  - cbn [list_ascii_of_string] in Hu. apply Forall_cons in Hu as [Hb Hu].
    destruct t as [|a t]; [reflexivity|].
    cbn [lower caseless_eq String.eqb].
    rewrite (ascii_lower_same a b Hb), (IH Hu). reflexivity.
Qed.

Lemma lower_rhythm (t : string) :
  bool_decide (lower t <> "rhythm") = negb (caseless_eq t "rhythm").
Proof.
  rewrite <- (lower_caseless "rhythm") by (repeat constructor; cbn; tauto).
  destruct (String.eqb_spec (lower t) "rhythm") as [Heq|Hne].
  - apply bool_decide_eq_false_2. tauto.
  - apply bool_decide_eq_true_2. exact Hne.
Qed.

(** C6: a section is processed exactly when its type is ["rhythm"] up
    to the case of its letters (["Rhythm"], ["RHYTHM"], ...), which is
    when its type lowercased is ["rhythm"]; a section of any other type
    is skipped whole; a document whose sections all have type ["median"]
    yields the twelve leads empty. *)
Theorem rhythm_sections_only :
  (forall w st t, section_type w = Some t -> lower t <> "rhythm" ->
                  process_waveform w st = Ok st)
  /\ (forall w st t, section_type w = Some t -> lower t = "rhythm" ->
                     process_waveform w st
                     = for_each process_lead (xpath_descendants "LeadData" w) st)
  /\ (forall w st t, section_type w = Some t ->
                     process_waveform w st
                     = if caseless_eq t "rhythm"
                       then for_each process_lead (xpath_descendants "LeadData" w) st
                       else Ok st)
  /\ (forall root,
        Forall (fun w => section_type w = Some "median")
               (xpath_descendants "Waveform" root) ->
        exists d, get_lead_data root = Ok d
                  /\ forall k, k ∈ LEAD_NAMES -> d !! k = Some (Float1d [])).
Proof.
  split; [|split; [|split]].
  - intros w st t Ht Hne. rewrite (process_waveform_typed _ _ _ Ht).
    rewrite bool_decide_eq_true_2 by exact Hne. reflexivity.
  - intros w st t Ht Heq. rewrite (process_waveform_typed _ _ _ Ht).
    rewrite bool_decide_eq_false_2 by tauto. reflexivity.
  - intros w st t Ht. rewrite (process_waveform_typed _ _ _ Ht), lower_rhythm.
    destruct (caseless_eq t "rhythm"); reflexivity.
  - intros root Hall. unfold get_lead_data, collect.
    rewrite for_each_skip.
    + cbn [rbind leads].
      rewrite derive_empty by (apply lookup_initial_leads; set_solver).
      eexists. split; [reflexivity|].
      intros k. unfold LEAD_NAMES. rewrite !elem_of_cons, elem_of_nil.
      intros H. repeat (destruct H as [-> | H]; [reflexivity|]). contradiction.
    + eapply Forall_impl; [exact Hall|]. intros w Hw st.
      rewrite (process_waveform_typed _ _ _ Hw). reflexivity.
Qed.

(** C9: in a returned lead set III, aVR, aVL and aVF are the derivation
    expressions over its I and II. No lead node can write aVR, aVL or
    aVF (an uppercased identifier is none of these keys, so a recorded
    ["aVR"] is looked up as ["AVR"] and dropped): they are still empty
    when the derivation starts; and whatever was stored under III is
    replaced. *)
Theorem derived_leads_are_derived :
  (forall root d,
      get_lead_data root = Ok d ->
      exists st i ii v3 vr vl vf,
        collect root = Ok st
        /\ leads st !! "aVR" = Some (Float1d [])
        /\ leads st !! "aVL" = Some (Float1d [])
        /\ leads st !! "aVF" = Some (Float1d [])
        /\ leads st !! "I" = Some i /\ leads st !! "II" = Some ii
        /\ d !! "I" = Some i /\ d !! "II" = Some ii
        /\ expr_III i ii = Ok v3 /\ d !! "III" = Some v3
        /\ expr_aVR i ii = Ok vr /\ d !! "aVR" = Some vr
        /\ expr_aVL i ii = Ok vl /\ d !! "aVL" = Some vl
        /\ expr_aVF i ii = Ok vf /\ d !! "aVF" = Some vf)
  /\ (forall s, upper (strip s) <> "aVR" /\ upper (strip s) <> "aVL"
                /\ upper (strip s) <> "aVF")
  /\ (forall ld st st',
        process_lead ld st = Ok st' ->
        leads st' !! "aVR" = leads st !! "aVR"
        /\ leads st' !! "aVL" = leads st !! "aVL"
        /\ leads st' !! "aVF" = leads st !! "aVF")
  /\ upper (strip "aVR") = "AVR" /\ "AVR" ∉ LEAD_NAMES.
Proof.
  split; [|split; [|split; [|split]]].
  - intros root d Hget. apply get_lead_data_ok in Hget as (st & Hc & Hder).
    apply derive_lookups in Hder
      as (i & ii & v3 & vr & vl & vf & HI & HII & HI' & HII'
          & H3 & L3 & HR & LR & HL & LL & HF & LF & _).
    exists st, i, ii, v3, vr, vl, vf.
    repeat match goal with |- _ /\ _ => split end; try assumption;
      eapply collect_augmented; eauto.
  - intros s. apply upper_not_augmented.
  - intros ld st st' H.
    repeat split; eapply process_lead_augmented; eauto.
  - reflexivity.
  - unfold LEAD_NAMES. rewrite !elem_of_cons, elem_of_nil.
    intros H. repeat (destruct H as [H | H]; [discriminate|]). contradiction.
Qed.

(** C10, as the code has it: with series in I and II after the loops,
    the derivation raises exactly when their lengths differ and neither
    is one; with equal lengths, or with one of them of length one (numpy
    broadcasts it), the lead set is returned. *)
Theorem derivation_shapes (root : Element) (st : state) (xs ys : list F) :
  collect root = Ok st ->
  leads st !! "I" = Some (Float1d xs) ->
  leads st !! "II" = Some (Float1d ys) ->
  (length xs <> length ys -> length xs <> 1%nat -> length ys <> 1%nat ->
   get_lead_data root = Raise ValueError)
  /\ (length xs = length ys \/ length xs = 1%nat \/ length ys = 1%nat ->
      exists d, get_lead_data root = Ok d).
Proof.
  intros Hc HI HII. unfold get_lead_data. rewrite Hc. cbn [rbind]. split.
  - intros H1 H2 H3. eapply derive_disagree; eauto.
    unfold shapes_agree. tauto.
  - intros H. eapply derive_agree; eauto.
Qed.

End AssemblerClaims.

(** ** Absent fields *)

Section AbsentFields.
Context {F : Type} {NE : NumEngine F}.

(** The three lead-level lookups are guarded: an absent child resolves
    to its default. *)
Lemma lead_defaults (ld : Element) :
  (find "LeadID" ld = None -> lead_id_of ld = Ok "[Unknown LeadID]")
  /\ (find "WaveFormData" ld = None -> waveform_text_of ld = Ok "")
  /\ (find "LeadAmplitudeUnitsPerBit" ld = None ->
      scale_of (F:=F) ld = Ok (of_int 1)).
Proof.
  unfold lead_id_of, waveform_text_of, scale_of.
  repeat split; intros ->; reflexivity.
Qed.

Lemma bare_lead_node_dropped :
  process_lead (F:=F) bare_lead_node (State initial_leads [])
  = Ok (State initial_leads ["No waveform data found."]).
Proof. reflexivity. Qed.

(** C7 fails on the section type: the lookup of [WaveformType] is not
    guarded the way the lead-level lookups are, and a waveform section
    without that child makes [get_lead_data] raise [AttributeError]. *)
Theorem untyped_section_raises :
  find "WaveformType" (Elem "Waveform" None []) = None
  /\ get_lead_data (F:=F) doc_untyped_section = Raise AttributeError.
Proof. split; reflexivity. Qed.

End AbsentFields.

(** ** The batch boundary *)

Lemma file_input (fl : flavour) (fs : fsnode) (p : fspath) :
  is_file fs p = true ->
  iter_xml_files fl fs [p] =
    if bool_decide (lower (suffix p) = ".xml") then [p] else [].
Proof.
  unfold iter_xml_files, is_file, is_dir. cbn [flat_map].
  destruct (resolve fs p) as [[|es]|]; try discriminate. intros _.
  rewrite app_nil_r. cbn [andb]. case_bool_decide; reflexivity.
Qed.

(** C8 fails on directories: a file named with an uppercase suffix is
    accepted when given as a path, and is not found when the directory
    holding it is given on a POSIX system, where [rglob("*.xml")] matches
    names as written; the expansion also yields a matching directory. *)
Theorem rglob_matches_as_written :
  iter_xml_files Posix fs_example [["data"; "ECG1.XML"]] = [["data"; "ECG1.XML"]]
  /\ iter_xml_files Posix fs_example [["data"]]
     = [["data"; "ecg2.xml"]; ["data"; "old.xml"]; ["data"; "old.xml"; "ecg3.xml"]]
  /\ is_file fs_example ["data"; "ECG1.XML"] = true
  /\ lower (suffix ["data"; "ECG1.XML"]) = ".xml"
  /\ is_dir fs_example ["data"; "old.xml"] = true.
Proof. repeat split; reflexivity. Qed.

(** ** The claims on concrete documents *)

Lemma decode_waveform_samples_witness :
  b64decode "AQD//w==" = Ok [1; 0; 255; 255]
  /\ exists xs : list Q,
      decode_waveform "AQD//w==" (2 # 1)%Q = Samples xs
      /\ length xs = 2%nat
      /\ xs !! 1%nat = Some (fmul (of_int (-1)) (2 # 1)%Q).
Proof.
  split; [reflexivity|].
  destruct (decode_waveform_samples "AQD//w==" (2 # 1)%Q [1; 0; 255; 255])
    as [(xs & H1 & H2 & H3) _]; [reflexivity|].
  exists xs. split; [exact H1|]. split; [exact H2|].
  exact (H3 1%nat 255 255 eq_refl eq_refl).
Defined.


Lemma derived_leads_pointwise_witness :
  exists iii : list Q,
    returned (get_lead_data doc_rhythm) !! "III" = Some (Float1d iii)
    /\ iii !! 1%nat = Some (fsub (1 # 1) (-20 # 10))%Q.
Proof.
  destruct (derived_leads_pointwise doc_rhythm (returned (get_lead_data doc_rhythm))
              [20 # 10; -20 # 10]%Q [2 # 1; 1 # 1]%Q 2 1)
    as (x & y & iii & avr & avl & avf & Hx & Hy & H3 & H3k & _);
    [vm_compute; reflexivity .. | lia |].
  injection Hx as <-. injection Hy as <-. exists iii. split; assumption.
Defined.

Lemma decode_failure_contained_witness :
  for_each process_lead [lead_node "I" "AQD//w=="] (State initial_leads []) = Ok after_I
  /\ exists st2 : state (F:=Q),
      process_lead (lead_node "V1" "A") after_I = Ok st2
      /\ leads st2 !! "V1" = Some (Str0d (marker (InvalidLength 1)))
      /\ leads st2 !! "I" = leads after_I !! "I"
      /\ for_each process_lead
           [lead_node "I" "AQD//w=="; lead_node "V1" "A"; lead_node "II" "AgABAA=="]
           (State initial_leads [])
         = for_each process_lead [lead_node "II" "AgABAA=="] st2.
Proof.
  assert (H0 : for_each process_lead [lead_node "I" "AQD//w=="]
                 (State initial_leads []) = Ok after_I)
    by (vm_compute; reflexivity).
  split; [exact H0|].
  destruct (decode_failure_contained (lead_node "V1" "A") "V1" "A" (of_int 1)
              (InvalidLength 1) eq_refl eq_refl eq_refl eq_refl
              [lead_node "I" "AQD//w=="] [lead_node "II" "AgABAA=="]
              (State initial_leads []) after_I H0)
    as (st2 & Hstep & Hk & Hother & _ & Hloop).
  { exists (Float1d []). vm_compute. reflexivity. }
  exists st2. split; [exact Hstep|]. split; [exact Hk|].
  split; [apply Hother; discriminate | exact Hloop].
Defined.

(** The claim C3 as written fails: the entry of the lead whose blob does
    not decode is the error text, not the empty series. *)
Lemma failing_lead_holds_error_text :
  b64decode "A" = Raise (InvalidLength 1)
  /\ exists d : gmap string (ndarray Q),
      get_lead_data doc_bad_V1 = Ok d
      /\ d !! "V1" = Some (Str0d (marker (InvalidLength 1)))
      /\ d !! "V1" <> Some (Float1d []).
Proof.
  split; [reflexivity|].
  exists (returned (get_lead_data doc_bad_V1)).
  split; [vm_compute; reflexivity|].
  split; [vm_compute; reflexivity|].
  vm_compute. discriminate.
Qed.

(** When the failing lead is I, the text array reaches the derivation. *)
Lemma failing_limb_lead_raises :
  get_lead_data (F:=Q) doc_bad_I = Raise TypeError.
Proof. vm_compute. reflexivity. Qed.

Lemma lead_set_fully_keyed_witness :
  dom (returned (get_lead_data doc_rhythm)) = list_to_set LEAD_NAMES
  /\ returned (get_lead_data doc_rhythm) !! "III"
     = Some (Float1d [(2 # 1) - (20 # 10); (1 # 1) - (-20 # 10)]%Q)
  /\ returned (get_lead_data doc_rhythm) !! "aVF"
     = Some (Float1d [(2 # 1) - (20 # 10) / (2 # 1);
                      (1 # 1) - (-20 # 10) / (2 # 1)]%Q)
  /\ exists d : gmap string (ndarray Q),
      get_lead_data doc_median = Ok d /\ d !! "aVF" = Some (Float1d []).
Proof.
  destruct (proj1 (lead_set_fully_keyed doc_rhythm)
              (returned (get_lead_data doc_rhythm)))
    as (Hdom & st & i & ii & v3 & vr & vl & vf & Hc & _ & HI & HII & _ & _
        & H3 & L3 & _ & _ & _ & _ & HF & LF);
    [vm_compute; reflexivity|].
  assert (HI0 : (let* st := collect doc_rhythm in Ok (leads st !! "I"))
                = Ok (Some (Float1d [20 # 10; -20 # 10]%Q)))
    by (vm_compute; reflexivity).
  assert (HII0 : (let* st := collect doc_rhythm in Ok (leads st !! "II"))
                 = Ok (Some (Float1d [2 # 1; 1 # 1]%Q)))
    by (vm_compute; reflexivity).
  rewrite Hc in HI0, HII0. cbn [rbind] in HI0, HII0.
  injection HI0 as HI0. injection HII0 as HII0.
  rewrite HI in HI0. rewrite HII in HII0.
  injection HI0 as ->. injection HII0 as ->.
  vm_compute in H3. injection H3 as <-.
  vm_compute in HF. injection HF as <-.
  split; [exact Hdom|].
  split; [rewrite L3; vm_compute; reflexivity|].
  split; [rewrite LF; vm_compute; reflexivity|].
  destruct (proj2 (lead_set_fully_keyed doc_median) (State initial_leads []))
    as (d & Hd & _ & _ & _ & HF'); [vm_compute; reflexivity .. |].
  exists d. split; assumption.
Defined.

Lemma rhythm_sections_only_witness :
  process_waveform (section "Median" [lead_node "I" "AAAA"]) (State initial_leads [])
  = Ok (State (F:=Q) initial_leads [])
  /\ process_waveform (section "Rhythm" [lead_node "I" "AQD//w=="])
       (State initial_leads [])
     = Ok after_I
  /\ process_waveform (section "RHYTHM" [lead_node "I" "AQD//w=="])
       (State initial_leads [])
     = Ok after_I
  /\ process_waveform (section " rhythm" [lead_node "I" "AQD//w=="])
       (State initial_leads [])
     = Ok (State (F:=Q) initial_leads [])
  /\ exists d : gmap string (ndarray Q),
      get_lead_data doc_median = Ok d /\ d !! "I" = Some (Float1d [])
      /\ d !! "III" = Some (Float1d []).
Proof.
  destruct (rhythm_sections_only (F:=Q)) as (Hskip & Hrun & Hcase & Hmedian).
  split; [apply (Hskip _ _ "Median"); [reflexivity | discriminate]|].
  split.
  { rewrite (Hrun _ _ "Rhythm"); [vm_compute; reflexivity | reflexivity ..]. }
  split.
  { rewrite (Hcase _ _ "RHYTHM"); [vm_compute; reflexivity | reflexivity]. }
  split.
  { rewrite (Hcase _ _ " rhythm"); reflexivity. }
  destruct (Hmedian doc_median) as (d & Hd & Hall).
  { repeat constructor. }
  exists d. split; [exact Hd|].
  split; apply Hall; unfold LEAD_NAMES; set_solver.
Defined.

Lemma derived_leads_are_derived_witness :
  exists d i ii v : ndarray Q,
    returned (get_lead_data doc_recorded_derived) !! "I" = Some i
    /\ returned (get_lead_data doc_recorded_derived) !! "II" = Some ii
    /\ expr_aVR i ii = Ok v
    /\ returned (get_lead_data doc_recorded_derived) !! "aVR" = Some v
    /\ expr_III i ii = Ok d
    /\ returned (get_lead_data doc_recorded_derived) !! "III" = Some d.
Proof.
  destruct (proj1 (derived_leads_are_derived (F:=Q)) doc_recorded_derived
              (returned (get_lead_data doc_recorded_derived)))
    as (st & i & ii & v3 & vr & vl & vf & H); [vm_compute; reflexivity|].
  decompose [and] H. exists v3, i, ii, vr. repeat split; assumption.
Defined.

Lemma derivation_shapes_witness :
  get_lead_data (F:=Q) doc_I_only = Raise ValueError
  /\ exists d : gmap string (ndarray Q), get_lead_data doc_one_sample = Ok d.
Proof.
  split.
  - destruct (derivation_shapes doc_I_only after_I [1 * 1; -1 * 1]%Q [])
      as [Hraise _]; [vm_compute; reflexivity .. |].
    apply Hraise; discriminate.
  - destruct (derivation_shapes doc_one_sample after_one_sample [1 * 1]%Q [])
      as [_ Hret]; [vm_compute; reflexivity .. |].
    apply Hret. right. left. reflexivity.
Defined.

(** The claim C10 as written fails: I holds one sample and II none, the
    lengths differ, and the lead set is returned. *)
Lemma one_sample_is_broadcast :
  exists (st : state (F:=Q)) (xs ys : list Q) (d : gmap string (ndarray Q)),
    collect doc_one_sample = Ok st
    /\ leads st !! "I" = Some (Float1d xs)
    /\ leads st !! "II" = Some (Float1d ys)
    /\ length xs <> length ys
    /\ (xs <> [] \/ ys <> [])
    /\ get_lead_data doc_one_sample = Ok d
    /\ d !! "III" = Some (Float1d []).
Proof.
  exists after_one_sample, [1 * 1]%Q, [], (returned (get_lead_data doc_one_sample)).
  repeat split; try (vm_compute; reflexivity); try discriminate.
  left. discriminate.
Qed.

(** * Further properties of the code *)

(** ** The exceptions of the assembler *)

Lemma for_each_raise {S X : Type} (body : X -> S -> result exception S)
    (xs : list X) (e : exception) :
  forall st, for_each body xs st = Raise e ->
             exists x st', x ∈ xs /\ body x st' = Raise e.
Proof.
  induction xs as [|x xs IH]; intros st; simpl; [discriminate|].
  destruct (body x st) as [st1|e1] eqn:Hx; simpl.
  - intros H. destruct (IH _ H) as (y & st' & Hy & Hb).
    exists y, st'. split; [by apply list_elem_of_further | exact Hb].
  - intros [= <-]. exists x, st. split; [apply list_elem_of_here | exact Hx].
Qed.

Lemma of_text_raise (t : option string) (e : exception) :
  of_text t = Raise e -> t = None /\ e = AttributeError.
Proof. destruct t; simpl; [discriminate|]. intros [= <-]. auto. Qed.

Section AssemblerExceptions.
Context {F : Type} {NE : NumEngine F}.

Lemma lead_id_of_raise (ld : Element) (e : exception) :
  lead_id_of ld = Raise e <-> e = AttributeError /\ textless "LeadID" ld.
Proof.
  unfold lead_id_of, textless. destruct (find "LeadID" ld) as [el|].
  - destruct (text el) as [t|] eqn:Ht; simpl.
    + split; [discriminate|]. intros (_ & el' & [= <-] & H). congruence.
    + split; [intros [= <-]; eauto|]. intros [-> _]. reflexivity.
  - split; [discriminate|]. intros (_ & el & H & _). discriminate.
Qed.

Lemma waveform_text_of_raise (ld : Element) (e : exception) :
  waveform_text_of ld = Raise e <-> e = AttributeError /\ textless "WaveFormData" ld.
Proof.
  unfold waveform_text_of, textless. destruct (find "WaveFormData" ld) as [el|].
  - destruct (text el) as [t|] eqn:Ht; simpl.
    + split; [discriminate|]. intros (_ & el' & [= <-] & H). congruence.
    + split; [intros [= <-]; eauto|]. intros [-> _]. reflexivity.
  - split; [discriminate|]. intros (_ & el & H & _). discriminate.
Qed.

Lemma scale_of_raise (ld : Element) (e : exception) :
  scale_of (F:=F) ld = Raise e <->
  exists el, find "LeadAmplitudeUnitsPerBit" ld = Some el
             /\ ((text el = None /\ e = AttributeError)
                 \/ (exists t, text el = Some t /\ float_of_str (strip t) = None
                               /\ e = ValueError)).
Proof.
  unfold scale_of. destruct (find "LeadAmplitudeUnitsPerBit" ld) as [el|].
  - destruct (text el) as [t|] eqn:Ht; simpl.
    + destruct (float_of_str (strip t)) as [x|] eqn:Hx.
      * split; [discriminate|].
        intros (el' & [= <-] & [[H _] | (t' & H & Hn & _)]); congruence.
      * split.
        -- intros [= <-]. exists el. split; [reflexivity|]. right. eauto.
        -- intros (el' & [= <-] & [[H _] | (t' & H & Hn & ->)]);
             [congruence | reflexivity].
    + split.
      * intros [= <-]. exists el. split; [reflexivity|]. left. auto.
      * intros (el' & [= <-] & [[_ ->] | (t' & H & _)]); [reflexivity | congruence].
  - split; [discriminate|]. intros (el & H & _). discriminate.
Qed.

(** X1: a lead node raises exactly when its identifier or its blob is
    present without text ([AttributeError]), or when its identifier is a
    key of the dictionary and its scale field is present without text
    ([AttributeError]) or with a text that [float] rejects ([ValueError]).
    The content of the blob never makes it raise. *)
Theorem process_lead_raises (ld : Element) (st : state) (e : exception) :
  process_lead ld st = Raise e <->
  (e = AttributeError /\ (textless "LeadID" ld \/ textless "WaveFormData" ld))
  \/ (exists (k blob : string) (el : Element),
        lead_id_of ld = Ok k /\ waveform_text_of ld = Ok blob
        /\ is_Some (leads st !! k)
        /\ find "LeadAmplitudeUnitsPerBit" ld = Some el
        /\ ((text el = None /\ e = AttributeError)
            \/ (exists t, text el = Some t /\ float_of_str (strip t) = None
                          /\ e = ValueError))).
Proof.
  unfold process_lead. split.
  - destruct (lead_id_of ld) as [k|e1] eqn:Hid; cbn [rbind].
    + destruct (waveform_text_of ld) as [blob|e2] eqn:Hb; cbn [rbind].
      * destruct (leads st !! k) as [v|] eqn:Hk; [|discriminate].
        destruct (scale_of ld) as [sc|e3] eqn:Hs; cbn [rbind]; [discriminate|].
        intros [= <-]. apply scale_of_raise in Hs as (el & Hel & Hcases).
        right. exists k, blob, el. eauto 10.
      * intros [= <-]. apply waveform_text_of_raise in Hb as [-> Hb]. left. auto.
    + intros [= <-]. apply lead_id_of_raise in Hid as [-> Hid]. left. auto.
  - intros [[-> [H | H]] | (k & blob & el & Hid & Hb & [v Hk] & Hel & Hcases)].
    + rewrite (proj2 (lead_id_of_raise ld AttributeError)) by auto. reflexivity.
    + destruct (lead_id_of ld) as [k|e1] eqn:Hid; cbn [rbind].
      * rewrite (proj2 (waveform_text_of_raise ld AttributeError)) by auto.
        reflexivity.
      * apply lead_id_of_raise in Hid as [-> _]. reflexivity.
    + rewrite Hid, Hb. cbn [rbind]. rewrite Hk.
      rewrite (proj2 (scale_of_raise ld e)) by eauto. reflexivity.
Qed.

Lemma process_lead_raise_kinds (ld : Element) (st : state) (e : exception) :
  process_lead ld st = Raise e -> e = AttributeError \/ e = ValueError.
Proof.
  unfold process_lead.
  destruct (lead_id_of ld) as [k|e1] eqn:Hid; cbn [rbind].
  - destruct (waveform_text_of ld) as [blob|e2] eqn:Hb; cbn [rbind].
    + destruct (leads st !! k) as [v|]; [|discriminate].
      destruct (scale_of ld) as [sc|e3] eqn:Hs; cbn [rbind]; [discriminate|].
      intros [= <-]. apply scale_of_raise in Hs as (el & _ & [[_ ->] | (t & _ & _ & ->)]); auto.
    + intros [= <-]. apply waveform_text_of_raise in Hb as [-> _]. auto.
  - intros [= <-]. apply lead_id_of_raise in Hid as [-> _]. auto.
Qed.

Lemma process_waveform_raise_kinds (w : Element) (st : state) (e : exception) :
  process_waveform w st = Raise e -> e = AttributeError \/ e = ValueError.
Proof.
  unfold process_waveform.
  destruct (find "WaveformType" w) as [el|]; cbn [rbind]; [|intros [= <-]; auto].
  destruct (of_text (text el)) as [t|e1] eqn:Ht; cbn [rbind].
  - case_bool_decide; [discriminate|]. intros Hrun.
    apply for_each_raise in Hrun as (ld & st' & _ & Hld).
    eapply process_lead_raise_kinds, Hld.
  - intros [= <-]. apply of_text_raise in Ht as [_ ->]. auto.
Qed.

Lemma broadcast2_raise_kinds (f : F -> F -> F) (a b : ndarray F) (e : exception) :
  broadcast2 f a b = Raise e -> e = ValueError \/ e = TypeError.
Proof.
  unfold broadcast2. destruct a as [xs|], b as [ys|]; try (intros [= <-]; auto).
  destruct (decide _); [discriminate|].
  destruct xs as [|x [|]], ys as [|y [|]]; try discriminate; intros [= <-]; auto.
Qed.

Lemma derive_raise_kinds (d : gmap string (ndarray F)) (e : exception) :
  is_Some (d !! "I") -> is_Some (d !! "II") ->
  derive d = Raise e -> e = ValueError \/ e = TypeError.
Proof.
  intros [i HI] [ii HII]. rewrite derive_eq. unfold getitem. rewrite HI, HII.
  cbn [rbind]. unfold expr_III, expr_aVR, expr_aVL, expr_aVF, np_sub, np_add.
  destruct i as [xs|t]; [|destruct ii; intros [= <-]; auto].
  destruct ii as [ys|t]; [|intros [= <-]; auto].
  destruct (broadcast2 fsub (Float1d ys) (Float1d xs)) as [v3|e1] eqn:H3;
    cbn [rbind]; [|intros [= <-]; eapply broadcast2_raise_kinds, H3].
  destruct (broadcast2 fadd (Float1d xs) (Float1d ys)) as [s|e1] eqn:Hs;
    cbn [rbind]; [|intros [= <-]; eapply broadcast2_raise_kinds, Hs].
  destruct s as [zs|t]; cbn [np_neg np_div2 rbind]; [|intros [= <-]; auto].
  destruct (broadcast2 fsub (Float1d xs)
              (Float1d (map (fun x => fdiv x (of_int 2)) ys)))
    as [vl|e1] eqn:Hl; cbn [rbind];
    [|intros [= <-]; eapply broadcast2_raise_kinds, Hl].
  destruct (broadcast2 fsub (Float1d ys)
              (Float1d (map (fun x => fdiv x (of_int 2)) xs)))
    as [vf|e1] eqn:Hf; cbn [rbind];
    [discriminate | intros [= <-]; eapply broadcast2_raise_kinds, Hf].
Qed.

(** X2: an exception that leaves [get_lead_data] is an [AttributeError]
    or a [ValueError] raised while the sections are read, or a
    [ValueError] or a [TypeError] raised by the derivation arithmetic; the
    dictionary lookups of the derivation step never raise [KeyError]. *)
Theorem get_lead_data_exceptions (root : Element) (e : exception) :
  get_lead_data root = Raise e ->
  (collect root = Raise e /\ (e = AttributeError \/ e = ValueError))
  \/ (exists st, collect root = Ok st /\ derive (leads st) = Raise e
                 /\ (e = ValueError \/ e = TypeError)).
Proof.
  unfold get_lead_data. destruct (collect root) as [st|e1] eqn:Hc; cbn [rbind].
  - intros Hd. right. exists st. split; [reflexivity|]. split; [exact Hd|].
    pose proof (collect_dom _ _ Hc) as Hdom.
    eapply derive_raise_kinds; [| |exact Hd]; apply elem_of_dom; rewrite Hdom;
      unfold LEAD_NAMES; set_solver.
  - intros [= <-]. left. split; [reflexivity|].
    unfold collect in Hc. apply for_each_raise in Hc as (w & st' & _ & H).
    eapply process_waveform_raise_kinds, H.
Qed.

(** X3: when the loops leave the error text of a failed decode under I
    or under II, the first line of the derivation raises [TypeError] and
    no lead set is returned. *)
Theorem text_in_limb_lead_raises (root : Element) (st : state) (s : string) :
  collect root = Ok st ->
  leads st !! "I" = Some (Str0d s) \/ leads st !! "II" = Some (Str0d s) ->
  get_lead_data root = Raise TypeError.
Proof.
  intros Hc H. unfold get_lead_data. rewrite Hc. cbn [rbind].
  pose proof (collect_dom _ _ Hc) as Hdom.
  assert (HI : is_Some (leads st !! "I"))
    by (apply elem_of_dom; rewrite Hdom; unfold LEAD_NAMES; set_solver).
  assert (HII : is_Some (leads st !! "II"))
    by (apply elem_of_dom; rewrite Hdom; unfold LEAD_NAMES; set_solver).
  destruct HI as [i HI], HII as [ii HII].
  eapply derive_text; [exact HI | exact HII |].
  destruct H as [H | H]; [left | right]; exists s; congruence.
Qed.

(** X4: the derivation step changes no key but III, aVR, aVL and aVF: in
    a returned lead set I, II and V1-V6 hold what the loops stored. *)
Theorem recorded_leads_kept (root : Element) (d : gmap string (ndarray F)) :
  get_lead_data root = Ok d ->
  exists st, collect root = Ok st
             /\ forall k, k ∉ DERIVED -> d !! k = leads st !! k.
Proof.
  intros Hget. apply get_lead_data_ok in Hget as (st & Hc & Hder).
  exists st. split; [exact Hc|]. intros k Hk.
  apply derive_ok in Hder as (i & ii & v3 & vr & vl & vf & _ & _ & _ & _ & _ & _ & ->).
  unfold DERIVED in Hk. rewrite !lookup_insert_ne; [reflexivity|..];
    intros <-; apply Hk; set_solver.
Qed.

Lemma for_each_process_lead_keys (lds : list Element) (st st' : state) (k : string) :
  for_each process_lead lds st = Ok st' ->
  is_Some (leads st !! k) -> is_Some (leads st' !! k).
Proof.
  intros H. revert st st' H.
  apply (for_each_invariant (fun s => is_Some (leads s !! k))).
  intros ld s s' Hs. rewrite <- !elem_of_dom, (process_lead_dom _ _ _ Hs). auto.
Qed.

(** X5: when several lead nodes resolve to one key, the last one read
    decides the entry: after a run of lead nodes that ends with [ld], the
    entry of the key of [ld] is the decode of the blob of [ld]. *)
Theorem last_lead_node_wins (before : list Element) (ld : Element)
    (st0 st : state) (k blob : string) (scale : F) :
  for_each process_lead (before ++ [ld]) st0 = Ok st ->
  lead_id_of ld = Ok k ->
  is_Some (leads st0 !! k) ->
  waveform_text_of ld = Ok blob ->
  scale_of ld = Ok scale ->
  leads st !! k = Some (np_array (decode_waveform blob scale)).
Proof.
  intros Hrun Hid Hk Hb Hs. rewrite for_each_app in Hrun.
  destruct (for_each process_lead before st0) as [st1|] eqn:H1;
    cbn [rbind for_each] in Hrun; [|discriminate].
  destruct (for_each_process_lead_keys _ _ _ k H1 Hk) as [v Hv].
  unfold process_lead in Hrun. rewrite Hid, Hb in Hrun. cbn [rbind] in Hrun.
  rewrite Hv, Hs in Hrun. cbn [rbind] in Hrun. injection Hrun as <-.
  apply lookup_insert_eq.
Qed.

End AssemblerExceptions.

(** ** Shapes and values of the derived leads *)

Section DerivedLeads.
Context {F : Type} {NE : NumEngine F}.

Lemma broadcast2_length (f : F -> F -> F) (xs ys : list F) (v : ndarray F) :
  broadcast2 f (Float1d xs) (Float1d ys) = Ok v ->
  shapes_agree xs ys
  /\ exists zs, v = Float1d zs /\ length zs = broadcast_length xs ys.
Proof.
  unfold broadcast2, shapes_agree, broadcast_length.
  destruct (decide (length xs = length ys)) as [Heq|Hne].
  - intros [= <-]. split; [auto|]. eexists. split; [reflexivity|].
    rewrite length_zip_with. destruct (decide _); lia.
  - destruct xs as [|x [|x' xs]].
    + destruct ys as [|y [|y' ys]]; try discriminate.
      intros [= <-]. split; [auto|]. eexists. split; reflexivity.
    + intros [= <-]. split; [auto|]. eexists. split; [reflexivity|].
      simpl. rewrite ?length_map. reflexivity.
    + destruct ys as [|y [|y' ys]]; try discriminate.
      intros [= <-]. split; [auto|]. eexists. split; [reflexivity|].
      simpl. rewrite ?length_map. reflexivity.
Qed.

Lemma broadcast_length_sym (xs ys : list F) :
  shapes_agree xs ys -> broadcast_length ys xs = broadcast_length xs ys.
Proof.
  unfold shapes_agree, broadcast_length.
  intros H. repeat destruct (decide _); lia.
Qed.

Lemma broadcast_length_map (g : F -> F) (xs ys : list F) :
  broadcast_length xs (map g ys) = broadcast_length xs ys
  /\ broadcast_length (map g xs) ys = broadcast_length xs ys.
Proof. unfold broadcast_length. rewrite !length_map. auto. Qed.

(** X6: in a returned lead set whose I and II are series, the lengths of
    I and II are equal or one of them is one, and III, aVR, aVL and aVF
    are series of one common length: that of II when I holds one sample,
    that of I otherwise. *)
Theorem derived_lengths (root : Element) (d : gmap string (ndarray F))
    (xs ys : list F) :
  get_lead_data root = Ok d ->
  d !! "I" = Some (Float1d xs) ->
  d !! "II" = Some (Float1d ys) ->
  shapes_agree xs ys
  /\ exists iii avr avl avf : list F,
      d !! "III" = Some (Float1d iii) /\ d !! "aVR" = Some (Float1d avr)
      /\ d !! "aVL" = Some (Float1d avl) /\ d !! "aVF" = Some (Float1d avf)
      /\ length iii = broadcast_length xs ys
      /\ length avr = broadcast_length xs ys
      /\ length avl = broadcast_length xs ys
      /\ length avf = broadcast_length xs ys.
Proof.
  intros Hget HI HII.
  apply get_lead_data_ok in Hget as (st & _ & Hder).
  apply derive_lookups in Hder
    as (i & ii & v3 & vr & vl & vf & _ & _ & HI' & HII'
        & H3 & L3 & HR & LR & HL & LL & HF & LF & _).
  rewrite HI in HI'. rewrite HII in HII'.
  injection HI' as <-. injection HII' as <-.
  unfold expr_III, np_sub in H3.
  apply broadcast2_length in H3 as (Hagree' & iii & -> & Hiii).
  assert (Hagree : shapes_agree xs ys)
    by (unfold shapes_agree in *; intuition).
  rewrite (broadcast_length_sym xs ys Hagree) in Hiii.
  unfold expr_aVR, np_add in HR.
  destruct (broadcast2 fadd (Float1d xs) (Float1d ys)) as [s|] eqn:Hs;
    cbn [rbind] in HR; [|discriminate].
  apply broadcast2_length in Hs as (_ & zs & -> & Hzs).
  cbn [np_neg np_div2 rbind] in HR. injection HR as <-.
  unfold expr_aVL, np_sub in HL. cbn [np_div2 rbind] in HL.
  apply broadcast2_length in HL as (_ & avl & -> & Havl).
  rewrite (proj1 (broadcast_length_map _ xs ys)) in Havl.
  unfold expr_aVF, np_sub in HF. cbn [np_div2 rbind] in HF.
  apply broadcast2_length in HF as (_ & avf & -> & Havf).
  rewrite (proj1 (broadcast_length_map _ ys xs)),
    (broadcast_length_sym xs ys Hagree) in Havf.
  split; [exact Hagree|].
  exists iii, (map half (map fneg zs)), avl, avf.
  repeat split; try assumption. rewrite !length_map. exact Hzs.
Qed.

End DerivedLeads.

(** ** Characters outside the base64 alphabet *)

Lemma a2b_loop_skip (c : ascii) (s2 : string) :
  Ascii.eqb c BASE64_PAD = false -> table_a2b_base64 c = None ->
  forall s1 q l p acc,
    a2b_loop (s1 +:+ String c s2) q l p acc = a2b_loop (s1 +:+ s2) q l p acc.
Proof.
  intros Hpad Htab. induction s1 as [|a s1 IH]; intros q l p acc.
  - simpl. rewrite Hpad, Htab. reflexivity.
  - change (String a s1 +:+ String c s2) with (String a (s1 +:+ String c s2)).
    change (String a s1 +:+ s2) with (String a (s1 +:+ s2)).
    cbn [a2b_loop]. repeat case_match; rewrite ?IH; reflexivity.
Qed.

Lemma only_ascii_skip (c : ascii) (s1 s2 : string) :
  code c < 128 -> only_ascii (s1 +:+ String c s2) = only_ascii (s1 +:+ s2).
Proof.
  intros Hc. induction s1 as [|a s1 IH]; simpl.
  - apply Z.ltb_lt in Hc. rewrite Hc. reflexivity.
  - rewrite IH. reflexivity.
Qed.

(** X8: an ASCII character that is neither in the base64 alphabet nor
    the pad (a line break, a space) can stand anywhere in a blob without
    changing what [decode_waveform] returns. *)
Theorem blob_whitespace_ignored {F : Type} {NE : NumEngine F}
    (s1 s2 : string) (c : ascii) (scale : F) :
  table_a2b_base64 c = None -> c <> BASE64_PAD -> code c < 128 ->
  decode_waveform (s1 +:+ String c s2) scale = decode_waveform (s1 +:+ s2) scale.
Proof.
  intros Htab Hpad Hc.
  assert (Hdec : b64decode (s1 +:+ String c s2) = b64decode (s1 +:+ s2)).
  { unfold b64decode, a2b_base64. rewrite only_ascii_skip by exact Hc.
    rewrite a2b_loop_skip; [reflexivity| |exact Htab].
    apply Ascii.eqb_neq. exact Hpad. }
  unfold decode_waveform. rewrite !decode_waveform_try_eq, Hdec. reflexivity.
Qed.

(** ** Text *)

Lemma str_app_nil_l (t : string) : "" +:+ t = t.
Proof. reflexivity. Qed.

Lemma str_app_cons (a : ascii) (s t : string) :
  String a s +:+ t = String a (s +:+ t).
Proof. reflexivity. Qed.

Lemma str_app_nil_r (s : string) : s +:+ "" = s.
Proof. induction s as [|a s IH]; [reflexivity|]. rewrite str_app_cons, IH. reflexivity. Qed.

Lemma str_app_assoc (s t u : string) : (s +:+ t) +:+ u = s +:+ (t +:+ u).
Proof.
  induction s as [|a s IH]; [reflexivity|]. rewrite !str_app_cons, IH. reflexivity.
Qed.

Lemma str_app_empty (s t : string) : s +:+ t = "" -> s = "" /\ t = "".
Proof. destruct s; [auto|]. rewrite str_app_cons. discriminate. Qed.

Lemma lstrip_head (s : string) (c : ascii) (r : string) :
  lstrip s = String c r -> isspace c = false.
Proof.
  induction s as [|a s IH]; simpl; [discriminate|].
  destruct (isspace a) eqn:Ha; [exact IH|]. intros [= <- _]. exact Ha.
Qed.

Lemma lstrip_fixed (c : ascii) (r : string) :
  isspace c = false -> lstrip (String c r) = String c r.
Proof. intros H. simpl. rewrite H. reflexivity. Qed.

Lemma rstrip_cons (c : ascii) (r : string) :
  isspace c = false -> rstrip (String c r) = String c (rstrip r).
Proof. intros H. simpl. rewrite H. destruct (rstrip r); reflexivity. Qed.

Lemma rstrip_idem (s : string) : rstrip (rstrip s) = rstrip s.
Proof.
  induction s as [|c r IH]; [reflexivity|]. simpl.
  destruct (rstrip r) as [|a r'] eqn:Hr.
  - destruct (isspace c) eqn:Hc; [reflexivity|]. simpl. rewrite Hc. reflexivity.
  - change (rstrip (String c (String a r'))) with
      (match rstrip (String a r') with
       | EmptyString => if isspace c then EmptyString else String c EmptyString
       | r'' => String c r''
       end).
    rewrite IH. reflexivity.
Qed.

Lemma strip_idem (s : string) : strip (strip s) = strip s.
Proof.
  unfold strip. destruct (lstrip s) as [|c r] eqn:Hs; [reflexivity|].
  pose proof (lstrip_head _ _ _ Hs) as Hc.
  rewrite (rstrip_cons _ _ Hc), (lstrip_fixed _ _ Hc), <- (rstrip_cons _ _ Hc).
  apply rstrip_idem.
Qed.

Lemma occurs_app (c : ascii) (s t : string) :
  occurs c (s +:+ t) = occurs c s || occurs c t.
Proof.
  induction s as [|a s IH]; [reflexivity|].
  rewrite str_app_cons. simpl. rewrite IH. apply orb_assoc.
Qed.

(** ** [get_int_or_none] *)

Lemma digit_of_range (c : ascii) (d : Z) : digit_of c = Some d -> 0 <= d <= 9.
Proof.
  unfold digit_of. cbv zeta.
  destruct (Z.leb_spec 48 (code c)), (Z.leb_spec (code c) 57); simpl;
    try discriminate. intros [= <-]. lia.
Qed.

Lemma digits_value_nonneg (s : string) :
  forall acc, 0 <= acc -> 0 <= digits_value s acc.
Proof.
  induction s as [|c r IH]; intros acc Hacc; simpl; [exact Hacc|].
  destruct (digit_of c) as [d|] eqn:Hd; [|exact Hacc].
  apply digit_of_range in Hd. apply IH. lia.
Qed.

Lemma isdigit_no_sign (u : string) : isdigit (String "-" u) = false.
Proof. reflexivity. Qed.

(** X9: [get_int_or_none] gives an integer only when the first element
    the path selects has a text that, stripped, is a non-empty run of
    decimal digits; the integer is then not negative. A missing element,
    an empty text, and a signed number such as [-30] all give [None]; the
    result is never a string. *)
Theorem get_int_or_none_values (root : Element) (steps : list string) :
  (forall n, get_int_or_none root steps = PyInt n ->
             0 <= n
             /\ exists el r t, find_path steps root = el :: r /\ text el = Some t
                               /\ isdigit (strip t) = true)
  /\ (forall s, get_int_or_none root steps <> PyStr s)
  /\ (find_path steps root = [] -> get_int_or_none root steps = PyNone)
  /\ (forall el r, find_path steps root = el :: r -> text el = None ->
                   get_int_or_none root steps = PyNone)
  /\ (forall el r t u, find_path steps root = el :: r -> text el = Some t ->
                       strip t = String "-" u ->
                       get_int_or_none root steps = PyNone).
Proof.
  unfold get_int_or_none, findtext.
  destruct (find_path steps root) as [|el r] eqn:Hsel.
  { split; [discriminate|]. split; [discriminate|]. split; [reflexivity|].
    split; discriminate. }
  destruct (text el) as [t|] eqn:Ht.
  2: { split; [discriminate|]. split; [discriminate|]. split; [discriminate|].
       split; [reflexivity|]. intros el' r' t' u [= <- <-]. congruence. }
  destruct (isdigit (strip t)) eqn:Hd.
  - split.
    { intros n [= <-]. split; [apply digits_value_nonneg; lia | eauto 10]. }
    split; [discriminate|]. split; [discriminate|].
    split; [intros el' r' [= <- <-]; congruence|].
    intros el' r' t' u [= <- <-] Ht' Hu.
    assert (t' = t) as -> by congruence.
    rewrite Hu, isdigit_no_sign in Hd. discriminate.
  - split; [discriminate|]. split; [discriminate|]. split; [discriminate|].
    split; reflexivity.
Qed.

(** ** The diagnosis text *)

Lemma child_text_stripped_raise (name : string) (st : Element) (e : exception) :
  child_text_stripped name st = Raise e -> e = AttributeError.
Proof.
  unfold child_text_stripped. destruct (find name st) as [el|].
  - destruct (text el); simpl; [discriminate|]. intros [= <-]. reflexivity.
  - intros [= <-]. reflexivity.
Qed.

Lemma find_path_statement_tag (root : Element) (parent : string) (st : Element) :
  st ∈ find_path [parent; "DiagnosisStatement"] root ->
  tag st = "DiagnosisStatement".
Proof.
  cbn [find_path]. rewrite list_elem_of_In, in_flat_map.
  intros (p & _ & Hst). rewrite in_flat_map in Hst.
  destruct Hst as (c & Hc & Hin). destruct Hin as [<- | []].
  apply list_elem_of_In, list_elem_of_filter in Hc as [Hc _].
  unfold has_tag in Hc. apply bool_decide_eq_true in Hc. exact Hc.
Qed.

Lemma diagnosis_step_eq (st : Element) (acc : string) :
  tag st = "DiagnosisStatement" ->
  diagnosis_step st acc =
    match child_text_stripped "StmtText" st with
    | Ok _ => Ok (acc +:+ statement_piece st)
    | Raise e => Raise e
    end.
Proof.
  intros Htag. unfold diagnosis_step, statement_piece. rewrite Htag.
  rewrite bool_decide_eq_true_2 by reflexivity.
  destruct (child_text_stripped "StmtText" st) as [t|e]; cbn [rbind]; [|reflexivity].
  destruct (child_text_stripped "StmtFlag" st) as [flag|e] eqn:Hflag.
  - case_bool_decide; rewrite ?str_app_assoc; reflexivity.
  - apply child_text_stripped_raise in Hflag as ->.
    rewrite ?str_app_assoc. reflexivity.
Qed.

Lemma statement_piece_nonempty (st : Element) (t : string) :
  child_text_stripped "StmtText" st = Ok t -> statement_piece st <> "".
Proof.
  intros H. unfold statement_piece. rewrite H. intros Hempty.
  apply str_app_empty in Hempty as [_ Hempty].
  rewrite str_app_cons in Hempty. discriminate.
Qed.

Lemma diagnosis_loop (sts : list Element) :
  Forall (fun st => tag st = "DiagnosisStatement") sts ->
  forall acc,
    (Forall (fun st => exists t, child_text_stripped "StmtText" st = Ok t) sts ->
     for_each diagnosis_step sts acc
     = Ok (acc +:+ String.concat "" (map statement_piece sts)))
    /\ (forall e, for_each diagnosis_step sts acc = Raise e ->
                  e = AttributeError
                  /\ exists st, st ∈ sts
                                /\ child_text_stripped "StmtText" st = Raise AttributeError)
    /\ (forall acc', for_each diagnosis_step sts acc = Ok acc' ->
                     Forall (fun st => exists t, child_text_stripped "StmtText" st = Ok t) sts).
Proof.
  induction 1 as [|st sts Htag _ IH]; intros acc.
  - split; [|split].
    + intros _. cbn. rewrite str_app_nil_r. reflexivity.
    + discriminate.
    + constructor.
  - cbn [for_each]. rewrite (diagnosis_step_eq _ _ Htag).
    destruct (child_text_stripped "StmtText" st) as [t|e] eqn:Ht; cbn [rbind].
    + destruct (IH (acc +:+ statement_piece st)) as (IH1 & IH2 & IH3).
      split; [|split].
      * intros Hall. apply Forall_cons in Hall as [_ Hall].
        rewrite (IH1 Hall), str_app_assoc. f_equal. f_equal.
        cbn [map String.concat]. destruct (map statement_piece sts) eqn:Hm;
          [cbn; rewrite str_app_nil_r; reflexivity|].
        cbn. reflexivity.
      * intros e He. destruct (IH2 e He) as (-> & st' & Hin & Hst').
        split; [reflexivity|]. exists st'. split; [by apply list_elem_of_further|exact Hst'].
      * intros acc' Hacc'. constructor; [eauto | eapply IH3, Hacc'].
    + split; [|split].
      * intros Hall. apply Forall_cons in Hall as [[t Ht'] _]. congruence.
      * intros e' [= <-]. pose proof (child_text_stripped_raise _ _ _ Ht) as ->.
        split; [reflexivity|]. exists st. split; [apply list_elem_of_here | exact Ht].
      * discriminate.
Qed.

Lemma concat_pieces_nonempty (st : Element) (sts : list Element) :
  Forall (fun st => exists t, child_text_stripped "StmtText" st = Ok t) (st :: sts) ->
  String.concat "" (map statement_piece (st :: sts)) <> "".
Proof.
  intros Hall. apply Forall_cons in Hall as [[t Ht] _].
  pose proof (statement_piece_nonempty _ _ Ht) as Hne.
  cbn [map String.concat]. destruct (map statement_piece sts).
  - exact Hne.
  - rewrite str_app_nil_l. intros H. apply str_app_empty in H as [H _]. auto.
Qed.

Lemma statements_tagged (root : Element) (parent : string) :
  Forall (fun st => tag st = "DiagnosisStatement")
    (find_path [parent; "DiagnosisStatement"] root).
Proof. apply Forall_forall. intros st. apply find_path_statement_tag. Qed.

Lemma diagnosis_text_closed (root : Element) (parent : string) :
  let sts := find_path [parent; "DiagnosisStatement"] root in
  Forall (fun st => exists t, child_text_stripped "StmtText" st = Ok t) sts ->
  diagnosis_text root parent =
    Ok (match sts with
        | [] => PyNone
        | _ => PyStr (strip (String.concat "" (map statement_piece sts)))
        end).
Proof.
  intros sts Hall. unfold diagnosis_text. fold sts.
  destruct (diagnosis_loop sts (statements_tagged root parent) "") as (Hok & _ & _).
  rewrite (Hok Hall), str_app_nil_l. cbn [rbind].
  destruct sts as [|st sts']; [reflexivity|].
  pose proof (concat_pieces_nonempty st sts' Hall) as Hne.
  destruct (String.concat "" (map statement_piece (st :: sts'))); [contradiction|].
  reflexivity.
Qed.

(** X10: when every selected statement has a [StmtText] with text, the
    diagnosis text is [None] if there is no statement and otherwise the
    strip of the statements' pieces joined in document order, each piece
    being the stripped text, a space, and a line feed after a statement
    flagged [ENDSLINE]. A statement without [StmtFlag] adds no line feed
    and raises nothing. *)
Theorem diagnosis_text_value (root : Element) (parent : string) :
  let sts := find_path [parent; "DiagnosisStatement"] root in
  Forall (fun st => exists t, child_text_stripped "StmtText" st = Ok t) sts ->
  diagnosis_text root parent =
    Ok (match sts with
        | [] => PyNone
        | _ => PyStr (strip (String.concat "" (map statement_piece sts)))
        end).
Proof. exact (diagnosis_text_closed root parent). Qed.

Lemma diagnosis_text_facts (root : Element) (parent : string) :
  let sts := find_path [parent; "DiagnosisStatement"] root in
  (forall e, diagnosis_text root parent = Raise e <->
             e = AttributeError
             /\ exists st, st ∈ sts
                           /\ child_text_stripped "StmtText" st = Raise AttributeError)
  /\ (forall v, diagnosis_text root parent = Ok v ->
                (v = PyNone <-> sts = [])
                /\ (forall n, v <> PyInt n)
                /\ (forall s, v = PyStr s -> strip s = s)).
Proof.
  intros sts.
  destruct (diagnosis_loop sts (statements_tagged root parent) "") as (Hok & Hraise & Hall).
  split.
  - intros e. split.
    + unfold diagnosis_text. fold sts.
      destruct (for_each diagnosis_step sts "") as [acc|e'] eqn:Hrun; cbn [rbind];
        [discriminate|].
      intros [= <-]. apply Hraise. reflexivity.
    + intros (-> & st & Hin & Hst).
      unfold diagnosis_text. fold sts.
      destruct (for_each diagnosis_step sts "") as [acc|e'] eqn:Hrun; cbn [rbind].
      * specialize (Hall acc eq_refl). rewrite Forall_forall in Hall.
        destruct (Hall st Hin) as [t Ht]. congruence.
      * destruct (Hraise e' eq_refl) as [-> _]. reflexivity.
  - intros v Hv.
    assert (Hforall : Forall (fun st => exists t, child_text_stripped "StmtText" st = Ok t) sts).
    { unfold diagnosis_text in Hv. fold sts in Hv.
      destruct (for_each diagnosis_step sts "") as [acc|e'] eqn:Hrun; [|discriminate].
      eapply Hall. reflexivity. }
    pose proof (diagnosis_text_closed root parent Hforall) as Hval.
    fold sts in Hval. cbv zeta in Hval. rewrite Hval in Hv. injection Hv as <-.
    destruct sts as [|st sts'].
    + repeat split; try discriminate; auto.
    + repeat split; try discriminate.
      intros s [= <-]. apply strip_idem.
Qed.

(** X11: a diagnosis loop raises exactly when one of its statements has
    no [StmtText] child or a [StmtText] without text, and what it raises
    is [AttributeError]. When it returns, the result is [None] exactly
    when there is no statement, and otherwise a text with no whitespace
    at either end. *)
Theorem diagnosis_text_outcome (root : Element) (parent : string) :
  let sts := find_path [parent; "DiagnosisStatement"] root in
  (forall e, diagnosis_text root parent = Raise e <->
             e = AttributeError
             /\ exists st, st ∈ sts
                           /\ child_text_stripped "StmtText" st = Raise AttributeError)
  /\ (forall v, diagnosis_text root parent = Ok v ->
                (v = PyNone <-> sts = [])
                /\ (forall n, v <> PyInt n)
                /\ (forall s, v = PyStr s -> strip s = s)).
Proof. exact (diagnosis_text_facts root parent). Qed.

(** ** [extract_xml] *)

Lemma fieldnames_closed :
  ({["original_diagnosis"]} ∪ ({["diagnosis_statement"]} ∪ list_to_set FIELDNAMES)
   : gset string) = list_to_set FIELDNAMES.
Proof.
  apply set_eq. intros k.
  rewrite !elem_of_union, !elem_of_singleton, elem_of_list_to_set.
  split; [|auto]. intros [-> | [-> | H]]; [| |exact H].
  - apply list_elem_of_lookup. exists 14%nat. reflexivity.
  - apply list_elem_of_lookup. exists 13%nat. reflexivity.
Qed.

Lemma foldl_insert_lookup {V : Type} (f : string -> V) (l : list string) (k : string) :
  forall acc : gmap string V,
    foldl (fun m j => <[j := f j]> m) acc l !! k
    = if decide (k ∈ l) then Some (f k) else acc !! k.
Proof.
  induction l as [|j l IH]; intros acc; cbn [foldl].
  - rewrite decide_False by apply not_elem_of_nil. reflexivity.
  - rewrite IH. destruct (decide (k ∈ l)) as [Hin|Hnin].
    + rewrite decide_True by (by apply list_elem_of_further). reflexivity.
    + destruct (decide (k = j)) as [->|Hne].
      * rewrite decide_True by apply list_elem_of_here. apply lookup_insert_eq.
      * rewrite decide_False by (rewrite elem_of_cons; tauto).
        apply lookup_insert_ne. congruence.
Qed.

Lemma clean_row_lookup (row_dict : gmap string pyval) (k : string) :
  clean_row_for_tsv row_dict !! k
  = if decide (k ∈ FIELDNAMES)
    then Some (clean_value (default PyNone (row_dict !! k)))
    else None.
Proof.
  unfold clean_row_for_tsv.
  rewrite (foldl_insert_lookup
             (fun j => clean_value (default PyNone (row_dict !! j)))).
  destruct (decide _); [reflexivity | apply lookup_empty].
Qed.

Lemma clean_row_dom (row_dict : gmap string pyval) :
  dom (clean_row_for_tsv row_dict) = list_to_set FIELDNAMES.
Proof.
  apply set_eq. intros k.
  rewrite elem_of_dom, clean_row_lookup, elem_of_list_to_set.
  destruct (decide (k ∈ FIELDNAMES)) as [Hin|Hnin].
  - split; [auto | eauto].
  - split; [intros [v Hv]; discriminate | contradiction].
Qed.

Lemma Ok_inj {E A : Type} (a b : A) : @Ok E A a = Ok b -> a = b.
Proof. intros [= H]. exact H. Qed.

(** X12: the record [extract_xml] builds has exactly the keys of
    [FIELDNAMES], its [file_path] is the filename it was given, and
    [clean_row_for_tsv] keeps its key set: no column of the header is
    without a key and no key is dropped by the writer. *)
Theorem extract_fields_keys (filename : string) (root : Element)
    (ecg : gmap string pyval) :
  extract_fields filename root = Ok ecg ->
  dom ecg = list_to_set FIELDNAMES
  /\ ecg !! "file_path" = Some (PyStr filename)
  /\ dom (clean_row_for_tsv ecg) = dom ecg.
Proof.
  unfold extract_fields.
  destruct (diagnosis_text root "Diagnosis") as [dg|]; cbn [rbind]; [|discriminate].
  destruct (diagnosis_text root "OriginalDiagnosis") as [og|]; cbn [rbind];
    [|discriminate].
  intros Heq. apply Ok_inj in Heq. subst ecg.
  assert (Hdom : dom (<["original_diagnosis" := og]>
                        (<["diagnosis_statement" := dg]>
                           (list_to_map (ecg_literal filename root) : gmap string pyval)))
                 = list_to_set FIELDNAMES).
  { rewrite !dom_insert_L, dom_list_to_map_L.
    change ((ecg_literal filename root).*1) with FIELDNAMES.
    apply fieldnames_closed. }
  split; [exact Hdom|]. split.
  - rewrite !lookup_insert_ne by discriminate.
    unfold ecg_literal. rewrite list_to_map_cons. apply lookup_insert_eq.
  - rewrite Hdom. apply clean_row_dom.
Qed.

(** X13: once the file is parsed, and when the texts of the integer
    fields are plain (ASCII and at most 640 characters, so that [int]
    raises nothing), [extract_xml] raises exactly when a statement under
    [Diagnosis] or under [OriginalDiagnosis] has no [StmtText] with
    text; what it raises is [AttributeError]. No other missing or empty
    field makes it raise. *)
Theorem extract_fields_raises (filename : string) (root : Element) (e : exception) :
  int_fields_plain root ->
  (extract_fields filename root = Raise e <->
   e = AttributeError
   /\ exists st,
       (st ∈ find_path ["Diagnosis"; "DiagnosisStatement"] root
        \/ st ∈ find_path ["OriginalDiagnosis"; "DiagnosisStatement"] root)
       /\ child_text_stripped "StmtText" st = Raise AttributeError).
Proof.
  intros _.
  destruct (diagnosis_text_facts root "Diagnosis") as [HD _].
  destruct (diagnosis_text_facts root "OriginalDiagnosis") as [HO _].
  unfold extract_fields. split.
  - destruct (diagnosis_text root "Diagnosis") as [dg|e1] eqn:H1; cbn [rbind].
    + destruct (diagnosis_text root "OriginalDiagnosis") as [og|e2] eqn:H2;
        cbn [rbind]; [discriminate|].
      intros [= <-]. destruct (proj1 (HO e2) eq_refl) as (-> & st & Hin & Hst).
      split; [reflexivity|]. exists st. auto.
    + intros [= <-]. destruct (proj1 (HD e1) eq_refl) as (-> & st & Hin & Hst).
      split; [reflexivity|]. exists st. auto.
  - intros (-> & st & [Hin | Hin] & Hst).
    + rewrite (proj2 (HD AttributeError)) by eauto. reflexivity.
    + destruct (diagnosis_text root "Diagnosis") as [dg|e1] eqn:H1; cbn [rbind].
      * rewrite (proj2 (HO AttributeError)) by eauto. reflexivity.
      * destruct (proj1 (HD e1) eq_refl) as (-> & _). reflexivity.
Qed.

(** ** [clean_row_for_tsv] *)

Lemma prefix_single (a c : ascii) (r : string) :
  String.prefix (String a "") (String c r) = Ascii.eqb c a.
Proof.
  cbn [String.prefix]. destruct (ascii_dec a c) as [->|Hne].
  - rewrite Ascii.eqb_refl. destruct r; reflexivity.
  - symmetry. apply Ascii.eqb_neq. congruence.
Qed.

Lemma replace_char_occurs (a b : ascii) (new s : string) :
  occurs b new = false ->
  (b = a \/ occurs b s = false) ->
  occurs b (str_replace (String a "") new s) = false.
Proof.
  intros Hnew. unfold str_replace. induction s as [|c r IH]; intros Hs;
    [reflexivity|].
  cbn [replace_from]. rewrite prefix_single.
  destruct (Ascii.eqb c a) eqn:Hca.
  - rewrite occurs_app, Hnew. cbn [String.length Nat.sub orb]. apply IH.
    destruct Hs as [Hs | Hs]; [auto|]. right. simpl in Hs.
    apply orb_false_iff in Hs as [_ Hs]. exact Hs.
  - cbn [occurs]. rewrite IH.
    + rewrite orb_false_r. destruct Hs as [-> | Hs]; [exact Hca|].
      simpl in Hs. apply orb_false_iff in Hs as [Hs _]. exact Hs.
    + destruct Hs as [Hs | Hs]; [auto|]. right. simpl in Hs.
      apply orb_false_iff in Hs as [_ Hs]. exact Hs.
Qed.

Lemma replace_absent (a : ascii) (old' new s : string) :
  occurs a s = false -> str_replace (String a old') new s = s.
Proof.
  unfold str_replace. induction s as [|c r IH]; intros Hs; [reflexivity|].
  simpl in Hs. apply orb_false_iff in Hs as [Hc Hr].
  cbn [replace_from String.prefix].
  destruct (ascii_dec a c) as [->|Hne]; [rewrite Ascii.eqb_refl in Hc; discriminate|].
  rewrite (IH Hr). reflexivity.
Qed.

Lemma clean_str_no_newline (s : string) :
  occurs "013"%char (clean_str s) = false /\ occurs "010"%char (clean_str s) = false.
Proof.
  unfold clean_str, LF, CR. split.
  - apply replace_char_occurs; [reflexivity|]. right.
    apply replace_char_occurs; [reflexivity | left; reflexivity].
  - apply replace_char_occurs; [reflexivity | left; reflexivity].
Qed.

Lemma clean_str_fixed (s : string) :
  occurs "013"%char s = false -> occurs "010"%char s = false -> clean_str s = s.
Proof.
  intros Hcr Hlf. unfold clean_str, CRLF, CR, LF.
  rewrite (replace_absent "013" _ _ s Hcr), (replace_absent "013" _ _ s Hcr).
  apply replace_absent. exact Hlf.
Qed.

Lemma clean_value_idem (v : pyval) : clean_value (clean_value v) = clean_value v.
Proof.
  destruct v as [s| |]; try reflexivity. cbn [clean_value]. f_equal.
  destruct (clean_str_no_newline s). by apply clean_str_fixed.
Qed.

(** X14: whatever dictionary it is given, [clean_row_for_tsv] returns
    one entry for each name of [FIELDNAMES] and nothing else: the cleaned
    value of the key when the dictionary has it, [None] when it has not;
    integers and [None] pass unchanged. *)
Theorem clean_row_entries (row_dict : gmap string pyval) (k : string) :
  (k ∈ FIELDNAMES ->
   clean_row_for_tsv row_dict !! k
   = Some (match row_dict !! k with
           | Some (PyStr s) => PyStr (clean_str s)
           | Some (PyInt n) => PyInt n
           | Some PyNone | None => PyNone
           end))
  /\ (k ∉ FIELDNAMES -> clean_row_for_tsv row_dict !! k = None).
Proof.
  rewrite clean_row_lookup. split; intros Hk.
  - rewrite decide_True by exact Hk.
    destruct (row_dict !! k) as [[s|n|]|]; reflexivity.
  - rewrite decide_False by exact Hk. reflexivity.
Qed.

(** X15: no text of a cleaned row holds a carriage return or a line
    feed. *)
Theorem clean_row_one_line (row_dict : gmap string pyval) (k s : string) :
  clean_row_for_tsv row_dict !! k = Some (PyStr s) ->
  occurs "013"%char s = false /\ occurs "010"%char s = false.
Proof.
  rewrite clean_row_lookup. destruct (decide _); [|discriminate].
  destruct (default PyNone (row_dict !! k)) as [t|n|]; cbn [clean_value];
    try discriminate.
  intros [= <-]. apply clean_str_no_newline.
Qed.

(** X16: cleaning a cleaned row changes nothing. *)
Theorem clean_row_idempotent (row_dict : gmap string pyval) :
  clean_row_for_tsv (clean_row_for_tsv row_dict) = clean_row_for_tsv row_dict.
Proof.
  apply map_eq. intros k. rewrite !clean_row_lookup.
  destruct (decide (k ∈ FIELDNAMES)); [|reflexivity].
  cbn [from_option id]. rewrite clean_value_idem. reflexivity.
Qed.

(** ** [write_metadata_batch] *)

Section BatchProperties.
Variable parse : string -> option Element.

Lemma successes_cons (f : string) (fs : list string) :
  successes parse (f :: fs)
  = match extract_xml parse f with
    | Ok ecg => ecg :: successes parse fs
    | Raise _ => successes parse fs
    end.
Proof. unfold successes. simpl. destruct (extract_xml parse f); reflexivity. Qed.

Lemma failures_cons (f : string) (fs : list string) :
  failures parse (f :: fs)
  = match extract_xml parse f with
    | Ok _ => failures parse fs
    | Raise e => (f, e) :: failures parse fs
    end.
Proof. unfold failures. simpl. destruct (extract_xml parse f); reflexivity. Qed.

Lemma warnings_app (evs evs' : list event) :
  warnings (evs ++ evs') = warnings evs ++ warnings evs'.
Proof. apply omap_app. Qed.

Lemma warnings_progress (c : bool) (n : Z) (f : string) :
  warnings (if c then [Progress n f] else []) = [].
Proof. destruct c; reflexivity. Qed.

Lemma batch_fold (progress_every : Z) (xml_paths : list string) :
  forall st st',
    foldl (batch_step parse progress_every) st xml_paths = st' ->
    written st'
    = written st ++ map (fun ecg => Row (clean_row_for_tsv ecg)) (successes parse xml_paths)
    /\ count st' = count st + Z.of_nat (length (successes parse xml_paths))
    /\ warnings (printed st') = warnings (printed st) ++ failures parse xml_paths
    /\ (forall n f, Progress n f ∈ printed st' ->
                    Progress n f ∈ printed st
                    \/ (progress_every <> 0 /\ n mod progress_every = 0
                        /\ count st < n <= count st')).
Proof.
  induction xml_paths as [|f fs IH]; intros st st'; cbn [foldl].
  - intros <-. cbn. rewrite !app_nil_r. repeat split; try lia. auto.
  - intros Hfold. destruct (IH _ _ Hfold) as (IHw & IHc & IHp & IHe).
    rewrite successes_cons, failures_cons. unfold batch_step in IHw, IHc, IHp, IHe.
    destruct (extract_xml parse f) as [ecg|e] eqn:Hf;
      cbn [written count printed] in IHw, IHc, IHp, IHe.
    + rewrite IHw, IHc, IHp. split; [rewrite <- app_assoc; reflexivity|].
      split; [cbn [length]; lia|].
      split; [rewrite warnings_app, warnings_progress, app_nil_r; reflexivity|].
      intros n g Hin. destruct (IHe n g Hin) as [Hold | (Hp & Hmod & Hn)].
      * apply elem_of_app in Hold as [Hold | Hnew]; [auto|].
        right. destruct (negb (progress_every =? 0)) eqn:Hz; cbn [andb] in Hnew;
          [|apply elem_of_nil in Hnew; contradiction].
        destruct ((count st + 1) mod progress_every =? 0) eqn:Hm;
          [|apply elem_of_nil in Hnew; contradiction].
        apply list_elem_of_singleton in Hnew. injection Hnew as -> ->.
        apply negb_true_iff, Z.eqb_neq in Hz. apply Z.eqb_eq in Hm.
        cbn [length]. repeat split; try assumption; lia.
      * right. cbn [length]. repeat split; try assumption; lia.
    + rewrite IHw, IHc, IHp. split; [reflexivity|]. split; [reflexivity|].
      split; [rewrite warnings_app, <- app_assoc; reflexivity|].
      intros n g Hin. destruct (IHe n g Hin) as [Hold | (Hp & Hmod & Hn)];
        [|right; repeat split; try assumption; lia].
      apply elem_of_app in Hold as [Hold | Hnew]; [left; exact Hold|].
      apply list_elem_of_singleton in Hnew. discriminate.
Qed.

(** X17: [write_metadata_batch] never stops at a document that fails:
    the file receives one row, the cleaned record, for each path on which
    [extract_xml] returns, in the order of the paths; each failing path
    gives one warning and no row; and the count printed at the end is the
    number of rows written. The rows follow a header when the file is
    overwritten or did not exist, and follow the old content, with no
    second header, when an existing file is appended to. *)
Theorem write_metadata_batch_rows (xml_paths : list string)
    (out_tsv : option (list tsv_line)) (append : bool) (progress_every : Z) :
  let result := write_metadata_batch parse xml_paths out_tsv append progress_every in
  let rows := map (fun ecg => Row (clean_row_for_tsv ecg)) (successes parse xml_paths) in
  result.1 = match append, out_tsv with
             | true, Some old => old
             | _, _ => [Header]
             end ++ rows
  /\ warnings result.2 = failures parse xml_paths
  /\ last result.2 = Some (Done (Z.of_nat (length rows))).
Proof.
  cbv zeta. unfold write_metadata_batch. cbn [fst snd].
  match goal with
  | |- context [foldl _ ?s _] =>
      destruct (batch_fold progress_every xml_paths s _ eq_refl) as (Hw & Hc & Hp & _)
  end.
  cbn [written count printed] in Hw, Hc, Hp.
  rewrite Hw. split; [|split].
  - f_equal. destruct append, out_tsv as [old|]; reflexivity.
  - rewrite warnings_app, Hp. cbn. apply app_nil_r.
  - rewrite last_snoc, Hc, length_map. reflexivity.
Qed.

(** X18: a progress line is printed only for a count of rows that is a
    multiple of [progress_every]; with [progress_every = 0] none is
    printed, and the modulo is not evaluated. *)
Theorem progress_lines (xml_paths : list string) (out_tsv : option (list tsv_line))
    (append : bool) (progress_every n : Z) (latest : string) :
  Progress n latest
    ∈ (write_metadata_batch parse xml_paths out_tsv append progress_every).2 ->
  progress_every <> 0 /\ n mod progress_every = 0
  /\ 0 < n <= Z.of_nat (length (successes parse xml_paths)).
Proof.
  unfold write_metadata_batch. cbn [fst snd].
  match goal with
  | |- context [foldl _ ?s _] =>
      destruct (batch_fold progress_every xml_paths s _ eq_refl) as (_ & Hc & _ & He)
  end.
  cbn [written count printed] in Hc, He.
  intros Hin. apply elem_of_app in Hin as [Hin | Hin].
  - destruct (He n latest Hin) as [Hnil | (Hp & Hm & Hn)].
    + apply elem_of_nil in Hnil. contradiction.
    + repeat split; try assumption; lia.
  - apply list_elem_of_singleton in Hin. discriminate.
Qed.

End BatchProperties.

(** ** [iter_xml_files] *)

Lemma fsnode_nested_ind (P : fsnode -> Prop) :
  P File ->
  (forall entries, Forall (fun e => P e.2) entries -> P (Dir entries)) ->
  forall node, P node.
Proof.
  intros HF HD. fix IH 1. intros [|entries]; [exact HF|].
  apply HD. induction entries as [|[name child] entries IHes];
    constructor; [apply IH | exact IHes].
Qed.

Lemma wf_fs_entries (entries : list (string * fsnode)) :
  wf_fs (Dir entries) ->
  NoDup (map fst entries) /\ Forall (fun e => wf_fs e.2) entries.
Proof.
  cbn [wf_fs]. intros [Hnd Hall]. split; [exact Hnd|]. clear Hnd.
  induction entries as [|e entries IH]; constructor; [apply Hall | apply IH, Hall].
Qed.

Lemma entry_elem (name : string) (entries : list (string * fsnode)) (c : fsnode) :
  entry name entries = Some c -> (name, c) ∈ entries.
Proof.
  induction entries as [|[n c'] entries IH]; cbn [entry]; [discriminate|].
  case_bool_decide as Hn.
  - intros [= <-]. subst n. apply list_elem_of_here.
  - intros H. apply list_elem_of_further, IH, H.
Qed.

Lemma elem_entry (name : string) (entries : list (string * fsnode)) (c : fsnode) :
  NoDup (map fst entries) -> (name, c) ∈ entries -> entry name entries = Some c.
Proof.
  induction entries as [|[n c'] entries IH]; cbn [entry map fst].
  - intros _ H. apply elem_of_nil in H. contradiction.
  - intros Hnd Hin. apply NoDup_cons in Hnd as [Hfresh Hnd].
    apply elem_of_cons in Hin as [[= -> ->] | Hin].
    + rewrite bool_decide_eq_true_2 by reflexivity. reflexivity.
    + case_bool_decide as Hn; [|apply IH; assumption].
      subst n. exfalso. apply Hfresh.
      apply list_elem_of_fmap. exists (name, c). auto.
Qed.

Lemma resolve_app (fs : fsnode) (p q : fspath) :
  resolve fs (p ++ q) = match resolve fs p with
                        | Some node => resolve node q
                        | None => None
                        end.
Proof.
  revert fs. induction p as [|name p IH]; intros fs; [reflexivity|].
  cbn [app resolve]. destruct fs as [|entries]; [reflexivity|].
  destruct (entry name entries); [apply IH | reflexivity].
Qed.

Lemma resolve_wf (fs : fsnode) (p : fspath) (node : fsnode) :
  wf_fs fs -> resolve fs p = Some node -> wf_fs node.
Proof.
  revert fs. induction p as [|name p IH]; intros fs Hwf; cbn [resolve].
  - intros [= <-]. exact Hwf.
  - destruct fs as [|entries]; [discriminate|].
    destruct (entry name entries) as [c|] eqn:Hc; [|discriminate].
    apply IH. apply wf_fs_entries in Hwf as [_ Hall].
    rewrite Forall_forall in Hall. apply (Hall (name, c)), entry_elem, Hc.
Qed.

Lemma rglob_xml_spec (fl : flavour) (node : fsnode) :
  wf_fs node ->
  forall (path p : fspath),
    p ∈ rglob_xml fl path node <->
    exists rel name, p = path ++ rel ++ [name]
                     /\ is_Some (resolve node (rel ++ [name]))
                     /\ fnmatch_xml fl name = true.
Proof.
  induction node as [|entries IH] using fsnode_nested_ind; intros Hwf path p.
  - cbn [rglob_xml]. split; [intros H; apply elem_of_nil in H; contradiction|].
    intros (rel & name & _ & [n Hn] & _). destruct rel; discriminate.
  - apply wf_fs_entries in Hwf as [Hnd Hall].
    rewrite Forall_forall in IH, Hall.
    cbn [rglob_xml]. rewrite elem_of_app, list_elem_of_fmap. split.
    + intros [([name c] & -> & Hin) | Hin].
      * apply list_elem_of_filter in Hin as [Hmatch Hin]. cbn [fst] in *.
        exists [], name. split; [reflexivity|]. split; [|exact Hmatch].
        cbn [app resolve]. rewrite (elem_entry _ _ _ Hnd Hin). eauto.
      * apply list_elem_of_In, in_flat_map in Hin as ([name c] & Hin & Hp).
        apply list_elem_of_In in Hin, Hp. cbn [fst snd] in Hp.
        apply (IH _ Hin (Hall _ Hin)) in Hp as (rel & leaf & -> & Hres & Hmatch).
        exists (name :: rel), leaf. split; [rewrite <- !app_assoc; reflexivity|].
        split; [|exact Hmatch].
        cbn [app resolve]. rewrite (elem_entry _ _ _ Hnd Hin). exact Hres.
    + intros (rel & leaf & -> & Hres & Hmatch). destruct rel as [|name rel].
      * left. cbn [app resolve] in Hres.
        destruct (entry leaf entries) as [c|] eqn:Hc; [|destruct Hres; discriminate].
        exists (leaf, c). split; [reflexivity|].
        apply list_elem_of_filter. split; [exact Hmatch | apply entry_elem, Hc].
      * right. cbn [app resolve] in Hres.
        destruct (entry name entries) as [c|] eqn:Hc; [|destruct Hres; discriminate].
        apply entry_elem in Hc.
        apply list_elem_of_In, in_flat_map. exists (name, c).
        split; [apply list_elem_of_In, Hc|]. apply list_elem_of_In. cbn [fst snd].
        apply (IH _ Hc (Hall _ Hc)). exists rel, leaf.
        split; [rewrite <- !app_assoc; reflexivity|]. auto.
Qed.

Lemma iter_single (fl : flavour) (fs : fsnode) (path : fspath) :
  iter_xml_files fl fs [path] =
    if is_file fs path && bool_decide (lower (suffix path) = ".xml") then [path]
    else if is_dir fs path then
      match resolve fs path with
      | Some node => rglob_xml fl path node
      | None => []
      end
    else [].
Proof. unfold iter_xml_files. cbn [flat_map]. apply app_nil_r. Qed.

(** X19: a path that is a file is yielded exactly when the suffix of
    its name, lowercased, is [.xml], on either platform; it is yielded
    once, and nothing else is. *)
Theorem file_input_accepted (fl : flavour) (fs : fsnode) (p : fspath) :
  is_file fs p = true ->
  (lower (suffix p) = ".xml" -> iter_xml_files fl fs [p] = [p])
  /\ (lower (suffix p) <> ".xml" -> iter_xml_files fl fs [p] = []).
Proof.
  intros Hfile. rewrite file_input by exact Hfile.
  split; intros H; [rewrite bool_decide_eq_true_2 | rewrite bool_decide_eq_false_2];
    auto.
Qed.

(** X20: for a directory of a file system in which no directory lists a
    name twice, the paths yielded are exactly the entries at any depth
    below it, files and directories alike, whose own name matches
    [*.xml] the way the platform matches; whether a name above the entry
    matches plays no part. *)
Theorem directory_input_expanded (fl : flavour) (fs : fsnode) (d p : fspath) :
  wf_fs fs -> is_dir fs d = true ->
  (p ∈ iter_xml_files fl fs [d] <->
   exists rel name, p = d ++ rel ++ [name]
                    /\ is_Some (resolve fs (d ++ rel ++ [name]))
                    /\ fnmatch_xml fl name = true).
Proof.
  intros Hwf Hdir. rewrite iter_single.
  unfold is_file, is_dir in *.
  destruct (resolve fs d) as [[|entries]|] eqn:Hd; try discriminate.
  cbn [andb]. rewrite rglob_xml_spec by (eapply resolve_wf; eauto).
  split; intros (rel & name & Hp & Hres & Hm); exists rel, name;
    (split; [exact Hp|]; split; [|exact Hm]).
  - rewrite resolve_app, Hd. exact Hres.
  - rewrite resolve_app, Hd in Hres. exact Hres.
Qed.

Lemma lower_xml_suffix (s : string) :
  endswith s ".xml" = true -> endswith (lower s) ".xml" = true.
Proof.
  induction s as [|c r IH]; cbn [endswith lower]; [auto|].
  intros H. apply orb_true_iff in H as [H | H].
  - apply bool_decide_eq_true in H.
    change (String (ascii_lower c) (lower r)) with (lower (String c r)).
    rewrite H. reflexivity.
  - rewrite (IH H). apply orb_true_r.
Qed.

Lemma rglob_posix_windows (node : fsnode) :
  forall (path p : fspath),
    p ∈ rglob_xml Posix path node -> p ∈ rglob_xml Windows path node.
Proof.
  induction node as [|entries IH] using fsnode_nested_ind; intros path p;
    [auto|].
  rewrite Forall_forall in IH. cbn [rglob_xml].
  rewrite !elem_of_app, !list_elem_of_fmap.
  intros [(e & -> & Hin) | Hin].
  - left. exists e. split; [reflexivity|].
    apply list_elem_of_filter in Hin as [Hm Hin].
    apply list_elem_of_filter. split; [|exact Hin].
    cbn [fnmatch_xml] in *. apply lower_xml_suffix, Hm.
  - right. apply list_elem_of_In, in_flat_map in Hin as (e & Hin & Hp).
    apply list_elem_of_In, in_flat_map. exists e. split; [exact Hin|].
    apply list_elem_of_In, IH; [apply list_elem_of_In, Hin | apply list_elem_of_In, Hp].
Qed.

(** X21: every path yielded on POSIX is yielded on Windows for the same
    file system and inputs: folding the case of names only adds. *)
Theorem posix_within_windows (fs : fsnode) (inputs : list fspath) (p : fspath) :
  p ∈ iter_xml_files Posix fs inputs -> p ∈ iter_xml_files Windows fs inputs.
Proof.
  unfold iter_xml_files. rewrite !list_elem_of_In, !in_flat_map.
  intros (path & Hin & Hp). exists path. split; [exact Hin|].
  destruct (is_file fs path && _); [exact Hp|].
  destruct (is_dir fs path); [|exact Hp].
  destruct (resolve fs path) as [node|]; [|exact Hp].
  apply list_elem_of_In, rglob_posix_windows, list_elem_of_In, Hp.
Qed.

(** ** The further properties on concrete inputs *)

Lemma returned_ok (r : result exception (gmap string (ndarray Q))) :
  is_ok r -> r = Ok (returned r).
Proof. destruct r; [reflexivity | contradiction]. Qed.

Lemma collected_ok (r : result exception (state (F:=Q))) :
  is_ok r -> r = Ok (collected r).
Proof. destruct r; [reflexivity | contradiction]. Qed.

Lemma extracted_ok (r : result exception (gmap string pyval)) :
  is_ok r -> r = Ok (extracted r).
Proof. destruct r; [reflexivity | contradiction]. Qed.

Lemma get_lead_data_exceptions_witness :
  collect (F:=Q) doc_untyped_section = Raise AttributeError.
Proof.
  destruct (get_lead_data_exceptions (F:=Q) doc_untyped_section AttributeError)
    as [[H _] | (st & H & _)]; [reflexivity | exact H | discriminate H].
Defined.

Lemma text_in_limb_lead_raises_witness :
  get_lead_data (F:=Q) doc_bad_I = Raise TypeError.
Proof.
  apply (text_in_limb_lead_raises doc_bad_I (collected (collect doc_bad_I))
           (marker (InvalidLength 1))).
  - apply collected_ok. vm_compute. exact I.
  - left. vm_compute. reflexivity.
Defined.

Lemma recorded_leads_kept_witness :
  returned (get_lead_data doc_rhythm) !! "V1"
  = leads (collected (collect doc_rhythm)) !! "V1".
Proof.
  destruct (recorded_leads_kept doc_rhythm (returned (get_lead_data doc_rhythm)))
    as (st & Hc & Hkeep).
  - apply returned_ok. vm_compute. exact I.
  - rewrite Hc. cbn [collected]. apply Hkeep.
    unfold DERIVED. rewrite !elem_of_cons, elem_of_nil.
    intros [H | [H | [H | [H | []]]]]; discriminate.
Defined.

Lemma last_lead_node_wins_witness :
  leads (collected (for_each process_lead
                      [lead_node "I" "AAAA"; lead_node "I" "AQD//w=="]
                      (State initial_leads []))) !! "I"
  = Some (np_array (decode_waveform "AQD//w==" (of_int 1))).
Proof.
  apply (last_lead_node_wins [lead_node "I" "AAAA"] (lead_node "I" "AQD//w==")
           (State initial_leads [])).
  - apply collected_ok. vm_compute. exact I.
  - reflexivity.
  - exists (Float1d []). vm_compute. reflexivity.
  - reflexivity.
  - reflexivity.
Defined.

Lemma derived_lengths_witness :
  exists avf : list Q,
    returned (get_lead_data doc_one_sample) !! "aVF" = Some (Float1d avf)
    /\ length avf = 0%nat.
Proof.
  destruct (derived_lengths doc_one_sample (returned (get_lead_data doc_one_sample))
              [1 * 1]%Q [])
    as (_ & iii & avr & avl & avf & _ & _ & _ & Hf & _ & _ & _ & Hlen).
  - apply returned_ok. vm_compute. exact I.
  - vm_compute. reflexivity.
  - vm_compute. reflexivity.
  - exists avf. split; [exact Hf | exact Hlen].
Defined.

Lemma blob_whitespace_ignored_witness :
  decode_waveform ("AQD/" +:+ String "010" "/w==") (2 # 1)%Q
  = decode_waveform "AQD//w==" (2 # 1)%Q.
Proof.
  apply (blob_whitespace_ignored "AQD/" "/w==" "010"%char (2 # 1)%Q).
  - reflexivity.
  - discriminate.
  - reflexivity.
Defined.

Lemma get_int_or_none_values_witness :
  get_int_or_none doc_metadata ["PatientDemographics"; "PatientAge"] = PyInt 63
  /\ get_int_or_none doc_metadata ["RestingECGMeasurements"; "RAxis"] = PyNone.
Proof.
  split; [reflexivity|].
  destruct (get_int_or_none_values doc_metadata ["RestingECGMeasurements"; "RAxis"])
    as (_ & _ & _ & _ & Hsigned).
  eapply (Hsigned _ _ "-30" "30"); reflexivity.
Defined.

Lemma diagnosis_text_value_witness :
  diagnosis_text doc_metadata "Diagnosis"
  = Ok (PyStr ("Sinus rhythm " +:+ LF +:+ "Normal ECG x")).
Proof.
  rewrite (diagnosis_text_value doc_metadata "Diagnosis").
  - reflexivity.
  - repeat constructor; eexists; reflexivity.
Defined.

Lemma diagnosis_text_outcome_witness :
  diagnosis_text doc_bad_statement "OriginalDiagnosis" = Raise AttributeError
  /\ diagnosis_text doc_bad_statement "Diagnosis" = Ok PyNone.
Proof.
  split.
  - apply (proj1 (diagnosis_text_outcome doc_bad_statement "OriginalDiagnosis")).
    split; [reflexivity|].
    exists (Elem "DiagnosisStatement" None [leaf "StmtFlag" "ENDSLINE"]).
    split; [|reflexivity]. apply list_elem_of_lookup. exists 1%nat. reflexivity.
  - destruct (proj2 (diagnosis_text_outcome doc_bad_statement "Diagnosis") PyNone)
      as (Hnone & _); reflexivity.
Defined.

Lemma extract_fields_keys_witness :
  dom (extracted (extract_fields "a.xml" doc_metadata)) = list_to_set FIELDNAMES
  /\ extracted (extract_fields "a.xml" doc_metadata) !! "file_path"
     = Some (PyStr "a.xml").
Proof.
  destruct (extract_fields_keys "a.xml" doc_metadata
              (extracted (extract_fields "a.xml" doc_metadata)))
    as (Hdom & Hfile & _).
  - apply extracted_ok. vm_compute. exact I.
  - split; assumption.
Defined.

Lemma extract_fields_raises_witness :
  int_fields_plain doc_bad_original
  /\ extract_fields "bad.xml" doc_bad_original = Raise AttributeError.
Proof.
  assert (Hplain : int_fields_plain doc_bad_original).
  { unfold int_fields_plain, INT_PATHS, MEASUREMENTS. cbn [map app].
    constructor; [split; [reflexivity | cbn; lia]|].
    repeat (constructor; [exact I|]). constructor. }
  split; [exact Hplain|].
  apply (extract_fields_raises "bad.xml" doc_bad_original AttributeError Hplain).
  split; [reflexivity|].
  exists (Elem "DiagnosisStatement" None [leaf "StmtFlag" "ENDSLINE"]).
  split; [|reflexivity]. right. apply list_elem_of_lookup. exists 0%nat. reflexivity.
Defined.

Lemma clean_row_entries_witness :
  clean_row_for_tsv {["patient_id" := PyStr ("a" +:+ CRLF +:+ "b")]} !! "patient_id"
  = Some (PyStr "a\nb")
  /\ clean_row_for_tsv {["patient_id" := PyStr "a"; "leads" := PyInt 1]} !! "leads"
     = None.
Proof.
  split.
  - rewrite (proj1 (clean_row_entries _ "patient_id")).
    + vm_compute. reflexivity.
    + apply list_elem_of_lookup. exists 1%nat. reflexivity.
  - apply (proj2 (clean_row_entries _ "leads")).
    unfold FIELDNAMES. rewrite !elem_of_cons, elem_of_nil.
    intros H. repeat (destruct H as [H | H]; [discriminate|]). contradiction.
Defined.

Lemma clean_row_one_line_witness :
  occurs "010"%char
    (clean_str ("Sinus rhythm " +:+ LF +:+ "Normal ECG x")) = false.
Proof.
  apply (clean_row_one_line
           {["diagnosis_statement" := PyStr ("Sinus rhythm " +:+ LF +:+ "Normal ECG x")]}
           "diagnosis_statement").
  rewrite (proj1 (clean_row_entries _ "diagnosis_statement")).
  - vm_compute. reflexivity.
  - apply list_elem_of_lookup. exists 13%nat. reflexivity.
Defined.

Lemma progress_lines_witness :
  (2 <> 0 /\ 2 mod 2 = 0
   /\ 0 < 2 <= Z.of_nat (length (successes example_parse
                                   ["a.xml"; "none.xml"; "bad.xml"; "a.xml"]))).
Proof.
  apply (progress_lines example_parse ["a.xml"; "none.xml"; "bad.xml"; "a.xml"]
           None true 2 2 "a.xml").
  apply list_elem_of_lookup. exists 2%nat. vm_compute. reflexivity.
Defined.

Lemma file_input_accepted_witness :
  iter_xml_files Windows fs_example [["data"; "ECG1.XML"]] = [["data"; "ECG1.XML"]]
  /\ iter_xml_files Posix fs_example [["data"; "notes.txt"]] = [].
Proof.
  split.
  - apply (file_input_accepted Windows fs_example ["data"; "ECG1.XML"]); reflexivity.
  - apply (file_input_accepted Posix fs_example ["data"; "notes.txt"]);
      [reflexivity | discriminate].
Defined.

Lemma fs_example_wf : wf_fs fs_example.
Proof.
  cbn. repeat split; repeat constructor; rewrite ?elem_of_cons, ?elem_of_nil;
    intuition discriminate.
Qed.

Lemma directory_input_expanded_witness :
  ["data"; "old.xml"; "ecg3.xml"] ∈ iter_xml_files Posix fs_example [["data"]].
Proof.
  apply (directory_input_expanded Posix fs_example ["data"]);
    [exact fs_example_wf | reflexivity |].
  exists ["old.xml"], "ecg3.xml". split; [reflexivity|].
  split; [eexists; reflexivity | reflexivity].
Defined.

Lemma posix_within_windows_witness :
  ["data"; "ecg2.xml"] ∈ iter_xml_files Windows fs_example [["data"]].
Proof.
  apply posix_within_windows.
  apply list_elem_of_lookup. exists 0%nat. reflexivity.
Defined.
